(** * Row-level security of the admission-inquiry schema

    A shallow embedding of
    [supabase/migrations/20260105054332_create_base_schema.sql]:
    the three tables with their constraints and referential actions, the
    [CREATE POLICY] statements, the [updated_at] trigger, and the statements
    a client can issue against them.

    Tables are finite maps from the primary key to the remaining columns, so
    the row record of a table has no [id] field: the key is the [id].
    Nullable columns are [option]s, [NOT NULL] columns are plain values.
    Policy expressions are SQL expressions and are evaluated in SQL's
    three-valued logic.

    The policies are read in two ways, and the two are kept apart.

    - As they are worded. A sub-select inside a policy expression ranges over
      all rows of the table it names, as they are before the statement. This
      is the reading of the comment at the head of the migration; [exec] and
      [select_from] follow it. Nothing a session can do goes beyond it, so
      what [exec] refuses is refused.

    - As PostgreSQL applies them. The policies of a table are applied to
      every read of that table, the reads inside policy expressions included.
      The select policies of [profiles] read [profiles], so applying them
      never ends, and PostgreSQL stops the statement with the error 42P17.
      [rls_expand], [pg_exec] and [pg_select] follow this reading; it decides
      what a statement really returns. *)

From stdpp Require Import base option list gmap strings sorting.
From Stdlib Require Import ZArith.

Local Open Scope string_scope.

(** [uuid] values are opaque identifiers, [timestamptz] values are instants. *)
Abbreviation uuid := N (only parsing).
Abbreviation timestamptz := Z (only parsing).

(** ** SQL's three-valued logic *)

Module Sql.

(** [None] is SQL's [NULL]. *)
Definition eq {A} `{EqDecision A} (x y : option A) : option bool :=
  match x, y with
  | Some a, Some b => Some (bool_decide (a = b))
  | _, _ => None
  end.

Definition and (x y : option bool) : option bool :=
  match x, y with
  | Some false, _ | _, Some false => Some false
  | Some true, Some true => Some true
  | _, _ => None
  end.

Definition or (x y : option bool) : option bool :=
  match x, y with
  | Some true, _ | _, Some true => Some true
  | Some false, Some false => Some false
  | _, _ => None
  end.

(** [x IN (v1, ..., vn)] is [x = v1 OR ... OR x = vn]. *)
Fixpoint in_ {A} `{EqDecision A} (x : option A) (vs : list A) : option bool :=
  match vs with
  | [] => Some false
  | v :: vs' => or (eq x (Some v)) (in_ x vs')
  end.

(** A [WHERE], [USING] or [WITH CHECK] expression lets a row through only
    when it is true: false and [NULL] both reject. *)
Definition is_true (x : option bool) : bool :=
  match x with
  | Some true => true
  | _ => false
  end.

End Sql.

(** ** The tables *)

Module Profiles.
Record row := Row {
    email : string;
    full_name : string;
    role : string;
    created_by : option uuid;
    is_active : option bool;
    created_at : option timestamptz;
    updated_at : option timestamptz
}.
End Profiles.

Module Inquiries.
Record row := Row {
    student_name : string;
    contact_number : string;
    email : option string;
    course_interested : string;
    more_input : option string;
    status : string;
    assigned_to : option uuid;
    created_by : option uuid;
    created_at : option timestamptz;
    updated_at : option timestamptz
}.
End Inquiries.

Module FollowUps.
Record row := Row {
    inquiry_id : uuid;
    notes : string;
    follow_up_date : timestamptz;
    voice_recording_url : option string;
    created_by : option uuid;
    created_at : option timestamptz
}.
End FollowUps.

(** [auth_users] holds the ids of [auth.users], the identity provider's
    table that [profiles.id] and [profiles.created_by] reference. *)
Record db := Db {
  auth_users : gset uuid;
  profiles : gmap uuid Profiles.row;
  inquiries : gmap uuid Inquiries.row;
  follow_ups : gmap uuid FollowUps.row
}.

Definition empty_db : db := Db ∅ ∅ ∅ ∅.

(** ** Policies *)

Inductive command := SELECT | INSERT | UPDATE | DELETE.

Definition command_eqb (a b : command) : bool :=
  match a, b with
  | SELECT, SELECT | INSERT, INSERT | UPDATE, UPDATE | DELETE, DELETE => true
  | _, _ => false
  end.

(** The database role a request runs as. A request without a session runs as
    [anon]; one with a session runs as [authenticated] and [auth.uid()] is the
    session's user id. *)
Inductive db_role := anon | authenticated.

Definition db_role_eqb (a b : db_role) : bool :=
  match a, b with
  | anon, anon | authenticated, authenticated => true
  | _, _ => false
  end.

Definition session_role (caller : option uuid) : db_role :=
  match caller with
  | Some _ => authenticated
  | None => anon
  end.

(** A policy expression sees the database, [auth.uid()] and the row it is
    asked about (key and columns). *)
Definition expr (R : Type) : Type := db → option uuid → uuid → R → option bool.

Record policy (R : Type) := Policy {
  pol_name : string;
  pol_cmd : command;
  pol_to : db_role;
  pol_using : option (expr R);
  pol_with_check : option (expr R)
}.
Arguments Policy {R}.
Arguments pol_name {R}.
Arguments pol_cmd {R}.
Arguments pol_to {R}.
Arguments pol_using {R}.
Arguments pol_with_check {R}.

(** [EXISTS (SELECT 1 FROM profiles p WHERE wh)] *)
Definition exists_profile (d : db) (wh : uuid → Profiles.row → option bool) : bool :=
  existsb (λ kr, Sql.is_true (wh kr.1 kr.2)) (map_to_list (profiles d)).

(** [EXISTS (SELECT 1 FROM profiles p
            WHERE p.id = auth.uid() AND p.role = 'admin')] *)
Definition caller_is_admin {R} : expr R := λ d uid _ _,
  Some (exists_profile d (λ p_id p,
    Sql.and (Sql.eq (Some p_id) uid)
            (Sql.eq (Some (Profiles.role p)) (Some "admin")))).

(** [EXISTS (SELECT 1 FROM profiles p
            WHERE p.id = auth.uid() AND p.role = 'co_leader')] *)
Definition caller_is_co_leader {R} : expr R := λ d uid _ _,
  Some (exists_profile d (λ p_id p,
    Sql.and (Sql.eq (Some p_id) uid)
            (Sql.eq (Some (Profiles.role p)) (Some "co_leader")))).

(** [EXISTS (SELECT 1 FROM profiles p
            WHERE p.id = auth.uid() AND p.role IN ('admin', 'co_leader'))] *)
Definition caller_is_admin_or_co_leader {R} : expr R := λ d uid _ _,
  Some (exists_profile d (λ p_id p,
    Sql.and (Sql.eq (Some p_id) uid)
            (Sql.in_ (Some (Profiles.role p)) ["admin"; "co_leader"]))).

(** [EXISTS (SELECT 1 FROM inquiries i
            INNER JOIN profiles p ON p.id = auth.uid()
            WHERE i.id = follow_ups.inquiry_id
            AND (p.role IN ('admin', 'co_leader')
                 OR i.assigned_to = auth.uid()))] *)
Definition parent_inquiry_accessible : expr FollowUps.row := λ d uid _ f,
  Some (existsb (λ ki,
          existsb (λ kp,
            Sql.is_true (Sql.eq (Some kp.1) uid) &&
            Sql.is_true
              (Sql.and (Sql.eq (Some ki.1) (Some (FollowUps.inquiry_id f)))
                       (Sql.or (Sql.in_ (Some (Profiles.role kp.2))
                                        ["admin"; "co_leader"])
                               (Sql.eq (Inquiries.assigned_to ki.2) uid))))
            (map_to_list (profiles d)))
          (map_to_list (inquiries d))).

Definition profiles_policies : list (policy Profiles.row) := [
  Policy "Admins can view all profiles" SELECT authenticated
    (Some caller_is_admin) None;
  Policy "Co-leaders can view all profiles" SELECT authenticated
    (Some caller_is_co_leader) None;
  Policy "Employees can view own profile" SELECT authenticated
    (Some (λ _ uid id _, Sql.eq (Some id) uid)) None;
  Policy "Only admins can insert profiles" INSERT authenticated
    None (Some caller_is_admin);
  Policy "Only admins can update profiles" UPDATE authenticated
    (Some caller_is_admin) (Some caller_is_admin);
  Policy "Only admins can delete profiles" DELETE authenticated
    (Some caller_is_admin) None
].

Definition inquiries_policies : list (policy Inquiries.row) := [
  Policy "Admins and co-leaders can view all inquiries" SELECT authenticated
    (Some caller_is_admin_or_co_leader) None;
  Policy "Employees can view assigned inquiries" SELECT authenticated
    (Some (λ _ uid _ i, Sql.eq (Inquiries.assigned_to i) uid)) None;
  Policy "Admins and co-leaders can create inquiries" INSERT authenticated
    None (Some caller_is_admin_or_co_leader);
  Policy "Admins and co-leaders can update all inquiries" UPDATE authenticated
    (Some caller_is_admin_or_co_leader) (Some caller_is_admin_or_co_leader);
  Policy "Employees can update assigned inquiries" UPDATE authenticated
    (Some (λ _ uid _ i, Sql.eq (Inquiries.assigned_to i) uid))
    (Some (λ _ uid _ i, Sql.eq (Inquiries.assigned_to i) uid));
  Policy "Only admins can delete inquiries" DELETE authenticated
    (Some caller_is_admin) None
].

Definition follow_ups_policies : list (policy FollowUps.row) := [
  Policy "Users can view follow-ups for accessible inquiries" SELECT authenticated
    (Some parent_inquiry_accessible) None;
  Policy "Users can create follow-ups for accessible inquiries" INSERT authenticated
    None (Some parent_inquiry_accessible);
  Policy "Users can update own follow-ups" UPDATE authenticated
    (Some (λ _ uid _ f, Sql.eq (FollowUps.created_by f) uid))
    (Some (λ _ uid _ f, Sql.eq (FollowUps.created_by f) uid))
].

(** *** Evaluation of a table's policy set

    Row-level security is enabled on the three tables, so a row no policy
    lets through is refused. The policies are all permissive: those of one
    command are combined with OR. An existing row is tested with [USING], a
    proposed row with [WITH CHECK]; a policy without [WITH CHECK] tests the
    proposed row with its [USING], and one without [USING] puts no condition
    on existing rows. *)

Definition applies {R} (p : policy R) (cmd : command) (caller : option uuid) : bool :=
  command_eqb (pol_cmd p) cmd && db_role_eqb (pol_to p) (session_role caller).

Definition using_expr {R} (p : policy R) : expr R :=
  match pol_using p with
  | Some e => e
  | None => λ _ _ _ _, Some true
  end.

Definition check_expr {R} (p : policy R) : expr R :=
  match pol_with_check p with
  | Some e => e
  | None => using_expr p
  end.

Definition passes_using {R} (pols : list (policy R)) (cmd : command)
    (d : db) (caller : option uuid) (id : uuid) (r : R) : bool :=
  existsb (λ p, applies p cmd caller && Sql.is_true (using_expr p d caller id r)) pols.

Definition passes_check {R} (pols : list (policy R)) (cmd : command)
    (d : db) (caller : option uuid) (id : uuid) (r : R) : bool :=
  existsb (λ p, applies p cmd caller && Sql.is_true (check_expr p d caller id r)) pols.

(** Row visibility, and the rows a [SELECT] returns. *)

Definition visible {R} (pols : list (policy R))
    (d : db) (caller : option uuid) (id : uuid) (r : R) : bool :=
  passes_using pols SELECT d caller id r.

Definition select_from {R} (pols : list (policy R)) (table : gmap uuid R)
    (d : db) (caller : option uuid) : gmap uuid R :=
  filter (λ kr, visible pols d caller kr.1 kr.2 = true) table.

Definition select_profiles (d : db) (caller : option uuid) : gmap uuid Profiles.row :=
  select_from profiles_policies (profiles d) d caller.

Definition select_inquiries (d : db) (caller : option uuid) : gmap uuid Inquiries.row :=
  select_from inquiries_policies (inquiries d) d caller.

Definition select_follow_ups (d : db) (caller : option uuid) : gmap uuid FollowUps.row :=
  select_from follow_ups_policies (follow_ups d) d caller.

(** ** Triggers

    [update_updated_at_column] runs [BEFORE UPDATE ... FOR EACH ROW] on
    [profiles] and on [inquiries]: it sets [NEW.updated_at = now()]. *)

Definition update_profiles_updated_at (now : timestamptz) (r : Profiles.row) : Profiles.row :=
  Profiles.Row (Profiles.email r) (Profiles.full_name r) (Profiles.role r)
    (Profiles.created_by r) (Profiles.is_active r) (Profiles.created_at r)
    (Some now).

Definition update_inquiries_updated_at (now : timestamptz) (r : Inquiries.row) : Inquiries.row :=
  Inquiries.Row (Inquiries.student_name r) (Inquiries.contact_number r)
    (Inquiries.email r) (Inquiries.course_interested r) (Inquiries.more_input r)
    (Inquiries.status r) (Inquiries.assigned_to r) (Inquiries.created_by r)
    (Inquiries.created_at r) (Some now).

(** ** Constraints *)

(** [CHECK (role IN ('admin', 'co_leader', 'employee'))] *)
Definition role_check (r : Profiles.row) : bool :=
  negb (bool_decide (Sql.in_ (Some (Profiles.role r)) ["admin"; "co_leader"; "employee"]
                     = Some false)).

(** [CHECK (status IN ('pending', 'converted', 'dropped'))] *)
Definition status_check (r : Inquiries.row) : bool :=
  negb (bool_decide (Sql.in_ (Some (Inquiries.status r)) ["pending"; "converted"; "dropped"]
                     = Some false)).

(** A nullable foreign key holds when the column is [NULL] or names a row. *)
Definition references_user (d : db) (c : option uuid) : bool :=
  match c with
  | None => true
  | Some u => bool_decide (u ∈ auth_users d)
  end.

Definition references_profile (d : db) (c : option uuid) : bool :=
  match c with
  | None => true
  | Some u => bool_decide (is_Some (profiles d !! u))
  end.

(** [email text UNIQUE]: no other profile row has this email. *)
Definition email_unique (d : db) (id : uuid) (r : Profiles.row) : bool :=
  forallb (λ kr, bool_decide (kr.1 = id) ||
                 negb (bool_decide (Profiles.email kr.2 = Profiles.email r)))
          (map_to_list (profiles d)).

Definition profile_constraints (d : db) (id : uuid) (r : Profiles.row) : bool :=
  bool_decide (id ∈ auth_users d) && email_unique d id r && role_check r &&
  references_user d (Profiles.created_by r).

Definition inquiry_constraints (d : db) (r : Inquiries.row) : bool :=
  status_check r && references_profile d (Inquiries.assigned_to r) &&
  references_profile d (Inquiries.created_by r).

Definition follow_up_constraints (d : db) (r : FollowUps.row) : bool :=
  bool_decide (is_Some (inquiries d !! FollowUps.inquiry_id r)) &&
  references_profile d (FollowUps.created_by r).

(** ** Referential actions

    A referential action is carried out by the store itself: no policy is
    consulted for it. [ON DELETE SET NULL] is an update of the referencing
    row, so the row-level [BEFORE UPDATE] trigger of its table runs for it. *)

(** [inquiries.assigned_to ... REFERENCES profiles(id) ON DELETE SET NULL] *)
Definition inquiries_assigned_to_set_null (now : timestamptz) (pid : uuid)
    (r : Inquiries.row) : Inquiries.row :=
  if bool_decide (Inquiries.assigned_to r = Some pid) then
    update_inquiries_updated_at now
      (Inquiries.Row (Inquiries.student_name r) (Inquiries.contact_number r)
         (Inquiries.email r) (Inquiries.course_interested r) (Inquiries.more_input r)
         (Inquiries.status r) None (Inquiries.created_by r)
         (Inquiries.created_at r) (Inquiries.updated_at r))
  else r.

(** [inquiries.created_by ... REFERENCES profiles(id) ON DELETE SET NULL] *)
Definition inquiries_created_by_set_null (now : timestamptz) (pid : uuid)
    (r : Inquiries.row) : Inquiries.row :=
  if bool_decide (Inquiries.created_by r = Some pid) then
    update_inquiries_updated_at now
      (Inquiries.Row (Inquiries.student_name r) (Inquiries.contact_number r)
         (Inquiries.email r) (Inquiries.course_interested r) (Inquiries.more_input r)
         (Inquiries.status r) (Inquiries.assigned_to r) None
         (Inquiries.created_at r) (Inquiries.updated_at r))
  else r.

(** [follow_ups.created_by ... REFERENCES profiles(id) ON DELETE SET NULL];
    [follow_ups] has no trigger. *)
Definition follow_ups_created_by_set_null (pid : uuid)
    (r : FollowUps.row) : FollowUps.row :=
  if bool_decide (FollowUps.created_by r = Some pid) then
    FollowUps.Row (FollowUps.inquiry_id r) (FollowUps.notes r)
      (FollowUps.follow_up_date r) (FollowUps.voice_recording_url r) None
      (FollowUps.created_at r)
  else r.

(** [profiles.created_by ... REFERENCES auth.users(id) ON DELETE SET NULL] *)
Definition profiles_created_by_set_null (now : timestamptz) (uid : uuid)
    (r : Profiles.row) : Profiles.row :=
  if bool_decide (Profiles.created_by r = Some uid) then
    update_profiles_updated_at now
      (Profiles.Row (Profiles.email r) (Profiles.full_name r) (Profiles.role r)
         None (Profiles.is_active r) (Profiles.created_at r) (Profiles.updated_at r))
  else r.

(** What the removal of the [profiles] row [pid] does to the other tables. *)
Definition remove_profile (now : timestamptz) (pid : uuid) (d : db) : db :=
  Db (auth_users d)
     (delete pid (profiles d))
     ((λ r, inquiries_created_by_set_null now pid
              (inquiries_assigned_to_set_null now pid r)) <$> inquiries d)
     (follow_ups_created_by_set_null pid <$> follow_ups d).

(** [follow_ups.inquiry_id ... REFERENCES inquiries(id) ON DELETE CASCADE] *)
Definition remove_inquiry (iid : uuid) (d : db) : db :=
  Db (auth_users d)
     (profiles d)
     (delete iid (inquiries d))
     (filter (λ kr, FollowUps.inquiry_id kr.2 ≠ iid) (follow_ups d)).

(** [profiles.id ... REFERENCES auth.users(id) ON DELETE CASCADE], together
    with the set-null of [profiles.created_by]. *)
Definition remove_user (now : timestamptz) (uid : uuid) (d : db) : db :=
  let d1 := remove_profile now uid d in
  Db (auth_users d ∖ {[uid]})
     (profiles_created_by_set_null now uid <$> profiles d1)
     (inquiries d1)
     (follow_ups d1).

(** ** Statements, with the policies as they are worded

    The outcome of a statement: [AuthorizationDenied] when the policy set of
    the table refuses the row for the command, [NotFound] when no row has the
    given key, [ConstraintViolation] when a primary key, [UNIQUE], [CHECK] or
    foreign-key constraint refuses the proposed row. A statement that is not
    [Ok] leaves the database as it was. The outcomes name the decision, not
    what PostgreSQL reports for it; that is [pg_result] further down. *)

Inductive outcome := Ok | AuthorizationDenied | NotFound | ConstraintViolation.

Inductive request :=
  | insert_profiles (id : uuid) (r : Profiles.row)
  | update_profiles (id : uuid) (r : Profiles.row)
  | delete_profiles (id : uuid)
  | insert_inquiries (id : uuid) (r : Inquiries.row)
  | update_inquiries (id : uuid) (r : Inquiries.row)
  | delete_inquiries (id : uuid)
  | insert_follow_ups (id : uuid) (r : FollowUps.row)
  | update_follow_ups (id : uuid) (r : FollowUps.row)
  | delete_follow_ups (id : uuid).

(** The policy decisions for the three writing commands. *)

Definition insert_allowed {R} (pols : list (policy R))
    (d : db) (caller : option uuid) (id : uuid) (new : R) : bool :=
  passes_check pols INSERT d caller id new.

Definition update_allowed {R} (pols : list (policy R))
    (d : db) (caller : option uuid) (id : uuid) (old new : R) : bool :=
  passes_using pols UPDATE d caller id old && passes_check pols UPDATE d caller id new.

Definition delete_allowed {R} (pols : list (policy R))
    (d : db) (caller : option uuid) (id : uuid) (old : R) : bool :=
  passes_using pols DELETE d caller id old.

(** [exec now caller q d] runs the statement [q] for the session [caller] at
    time [now], deciding by the policies as they are worded. The proposed row
    of an update is the one the [BEFORE UPDATE] trigger hands on. *)
Definition exec (now : timestamptz) (caller : option uuid) (q : request) (d : db)
    : outcome * db :=
  match q with
  | insert_profiles id r =>
      if negb (insert_allowed profiles_policies d caller id r) then (AuthorizationDenied, d)
      else if negb (bool_decide (profiles d !! id = None) && profile_constraints d id r)
      then (ConstraintViolation, d)
      else (Ok, Db (auth_users d) (<[id:=r]> (profiles d)) (inquiries d) (follow_ups d))
  | update_profiles id r =>
      match profiles d !! id with
      | None => (NotFound, d)
      | Some old =>
          let new := update_profiles_updated_at now r in
          if negb (update_allowed profiles_policies d caller id old new)
          then (AuthorizationDenied, d)
          else if negb (profile_constraints d id new) then (ConstraintViolation, d)
          else (Ok, Db (auth_users d) (<[id:=new]> (profiles d)) (inquiries d) (follow_ups d))
      end
  | delete_profiles id =>
      match profiles d !! id with
      | None => (NotFound, d)
      | Some old =>
          if negb (delete_allowed profiles_policies d caller id old)
          then (AuthorizationDenied, d)
          else (Ok, remove_profile now id d)
      end
  | insert_inquiries id r =>
      if negb (insert_allowed inquiries_policies d caller id r) then (AuthorizationDenied, d)
      else if negb (bool_decide (inquiries d !! id = None) && inquiry_constraints d r)
      then (ConstraintViolation, d)
      else (Ok, Db (auth_users d) (profiles d) (<[id:=r]> (inquiries d)) (follow_ups d))
  | update_inquiries id r =>
      match inquiries d !! id with
      | None => (NotFound, d)
      | Some old =>
          let new := update_inquiries_updated_at now r in
          if negb (update_allowed inquiries_policies d caller id old new)
          then (AuthorizationDenied, d)
          else if negb (inquiry_constraints d new) then (ConstraintViolation, d)
          else (Ok, Db (auth_users d) (profiles d) (<[id:=new]> (inquiries d)) (follow_ups d))
      end
  | delete_inquiries id =>
      match inquiries d !! id with
      | None => (NotFound, d)
      | Some old =>
          if negb (delete_allowed inquiries_policies d caller id old)
          then (AuthorizationDenied, d)
          else (Ok, remove_inquiry id d)
      end
  | insert_follow_ups id r =>
      if negb (insert_allowed follow_ups_policies d caller id r) then (AuthorizationDenied, d)
      else if negb (bool_decide (follow_ups d !! id = None) && follow_up_constraints d r)
      then (ConstraintViolation, d)
      else (Ok, Db (auth_users d) (profiles d) (inquiries d) (<[id:=r]> (follow_ups d)))
  | update_follow_ups id r =>
      match follow_ups d !! id with
      | None => (NotFound, d)
      | Some old =>
          if negb (update_allowed follow_ups_policies d caller id old r)
          then (AuthorizationDenied, d)
          else if negb (follow_up_constraints d r) then (ConstraintViolation, d)
          else (Ok, Db (auth_users d) (profiles d) (inquiries d) (<[id:=r]> (follow_ups d)))
      end
  | delete_follow_ups id =>
      match follow_ups d !! id with
      | None => (NotFound, d)
      | Some old =>
          if negb (delete_allowed follow_ups_policies d caller id old)
          then (AuthorizationDenied, d)
          else (Ok, Db (auth_users d) (profiles d) (inquiries d) (delete id (follow_ups d)))
      end
  end.

(** What can happen to the database: a client's statement, or the identity
    provider adding or removing an account of [auth.users]. *)
Inductive event :=
  | Statement (caller : option uuid) (q : request)
  | UserCreated (uid : uuid)
  | UserDeleted (uid : uuid).

Definition step (now : timestamptz) (e : event) (d : db) : outcome * db :=
  match e with
  | Statement caller q => exec now caller q d
  | UserCreated uid =>
      (Ok, Db ({[uid]} ∪ auth_users d) (profiles d) (inquiries d) (follow_ups d))
  | UserDeleted uid => (Ok, remove_user now uid d)
  end.

Fixpoint run (es : list (timestamptz * event)) (d : db) : db :=
  match es with
  | [] => d
  | (now, e) :: es' => run es' (step now e d).2
  end.

(** The role recorded in the caller's profile row, when there is one. *)
Definition caller_role (d : db) (caller : option uuid) : option string :=
  u ← caller; Profiles.role <$> profiles d !! u.

(** ** Row security as PostgreSQL applies it

    Before a statement runs, PostgreSQL adds to it the policies of every
    table it touches and, in turn, the policies of every table that a
    sub-select of an added policy reads from. A table that comes up again
    while its own policies are being added ends the statement with

      [ERROR: infinite recursion detected in policy for relation ...]

    (SQLSTATE 42P17). This is decided from the statement and the policies
    alone, before any row is read. Row security is enabled on the three
    tables, so every read of one of them has the policies of the table added,
    or the default refusal where no policy is for the role. The roles [anon]
    and [authenticated] hold the table privileges, as they do on the tables
    of a Supabase project: row security is all that stands between a request
    and the rows. *)

Inductive table_name := on_profiles | on_inquiries | on_follow_ups.

#[global] Instance table_name_eq_dec : EqDecision table_name.
Proof. solve_decision. Defined.

(** The policies [ON] each table: name, command and role. *)
Definition policies_on (t : table_name) : list (string * command * db_role) :=
  match t with
  | on_profiles => (λ p, (pol_name p, pol_cmd p, pol_to p)) <$> profiles_policies
  | on_inquiries => (λ p, (pol_name p, pol_cmd p, pol_to p)) <$> inquiries_policies
  | on_follow_ups => (λ p, (pol_name p, pol_cmd p, pol_to p)) <$> follow_ups_policies
  end.

(** The tables in the [FROM] clauses of the sub-selects of each policy, in
    the order they are written; [USING] and [WITH CHECK] of the two update
    policies with sub-selects read the same table. *)
Definition sub_select_from : list (string * list table_name) := [
  ("Admins can view all profiles", [on_profiles]);
  ("Co-leaders can view all profiles", [on_profiles]);
  ("Employees can view own profile", []);
  ("Only admins can insert profiles", [on_profiles]);
  ("Only admins can update profiles", [on_profiles]);
  ("Only admins can delete profiles", [on_profiles]);
  ("Admins and co-leaders can view all inquiries", [on_profiles]);
  ("Employees can view assigned inquiries", []);
  ("Admins and co-leaders can create inquiries", [on_profiles]);
  ("Admins and co-leaders can update all inquiries", [on_profiles]);
  ("Employees can update assigned inquiries", []);
  ("Only admins can delete inquiries", [on_profiles]);
  ("Users can view follow-ups for accessible inquiries", [on_inquiries; on_profiles]);
  ("Users can create follow-ups for accessible inquiries", [on_inquiries; on_profiles]);
  ("Users can update own follow-ups", [])
].

Definition sub_selects (name : string) : list table_name :=
  default [] ((list_to_map sub_select_from : gmap string (list table_name)) !! name).

(** The commands whose policies a statement brings in. The updates and
    deletes here name their row ([WHERE id = ...]), so they read the table
    and bring in its [SELECT] policies besides their own. *)
Definition policy_commands (cmd : command) : list command :=
  match cmd with
  | SELECT => [SELECT]
  | INSERT => [INSERT]
  | UPDATE => [UPDATE; SELECT]
  | DELETE => [DELETE; SELECT]
  end.

(** The policies of [t] that are added for the role [r] and the commands
    [cmds], by name. *)
Definition applicable (r : db_role) (cmds : list command) (t : table_name) : list string :=
  (λ p, p.1.1) <$>
  filter (λ p, (existsb (command_eqb p.1.2) cmds && db_role_eqb p.2 r) = true)
         (policies_on t).

Inductive expansion := expanded | recursion_in (t : table_name) | out_of_fuel.

Fixpoint first_failure (es : list expansion) : expansion :=
  match es with
  | [] => expanded
  | expanded :: es' => first_failure es'
  | e :: _ => e
  end.

(** Adding the policies of [t]: [active] are the tables whose policies are
    being added further out. The sub-selects of the added policies are
    reads, so the tables they name get their [SELECT] policies. *)
Fixpoint expand (fuel : nat) (r : db_role) (active : list table_name)
    (cmds : list command) (t : table_name) : expansion :=
  match fuel with
  | 0 => out_of_fuel
  | S fuel' =>
      if bool_decide (t ∈ active) then recursion_in t
      else first_failure
             (expand fuel' r (t :: active) [SELECT] <$> (applicable r cmds t ≫= sub_selects))
  end.

(** Every level puts one more of the three tables into [active], so four
    levels are enough. *)
Definition rls_expand (r : db_role) (cmd : command) (t : table_name) : expansion :=
  expand 4 r [] (policy_commands cmd) t.

(** What comes back from a statement: the number of rows it changed, or an
    error with its SQLSTATE. *)
Inductive pg_result := affected (n : nat) | error (sqlstate : string).

(** [infinite recursion detected in policy for relation ...] *)
Definition invalid_object_definition : string := "42P17".
(** [new row violates row-level security policy for table ...] *)
Definition insufficient_privilege : string := "42501".
Definition check_violation : string := "23514".
Definition unique_violation : string := "23505".
Definition foreign_key_violation : string := "23503".
Definition statement_too_complex : string := "54001".

(** [UPDATE t SET ...] keeps the columns it does not set, so an update
    carries the function from the stored row to the proposed one. *)
Inductive statement :=
  | INSERT_INTO_profiles (id : uuid) (r : Profiles.row)
  | UPDATE_profiles (id : uuid) (set : Profiles.row → Profiles.row)
  | DELETE_FROM_profiles (id : uuid)
  | INSERT_INTO_inquiries (id : uuid) (r : Inquiries.row)
  | UPDATE_inquiries (id : uuid) (set : Inquiries.row → Inquiries.row)
  | DELETE_FROM_inquiries (id : uuid)
  | INSERT_INTO_follow_ups (id : uuid) (r : FollowUps.row)
  | UPDATE_follow_ups (id : uuid) (set : FollowUps.row → FollowUps.row)
  | DELETE_FROM_follow_ups (id : uuid).

Definition statement_command (s : statement) : command :=
  match s with
  | INSERT_INTO_profiles _ _ | INSERT_INTO_inquiries _ _ | INSERT_INTO_follow_ups _ _ => INSERT
  | UPDATE_profiles _ _ | UPDATE_inquiries _ _ | UPDATE_follow_ups _ _ => UPDATE
  | DELETE_FROM_profiles _ | DELETE_FROM_inquiries _ | DELETE_FROM_follow_ups _ => DELETE
  end.

Definition statement_table (s : statement) : table_name :=
  match s with
  | INSERT_INTO_profiles _ _ | UPDATE_profiles _ _ | DELETE_FROM_profiles _ => on_profiles
  | INSERT_INTO_inquiries _ _ | UPDATE_inquiries _ _ | DELETE_FROM_inquiries _ => on_inquiries
  | INSERT_INTO_follow_ups _ _ | UPDATE_follow_ups _ _ | DELETE_FROM_follow_ups _ => on_follow_ups
  end.

(** The constraints in the order they are checked: the [CHECK] on the row,
    the unique indexes as the row is stored, the foreign keys at the end of
    the statement. On an update a foreign key is checked only when its
    column changed. *)
Definition first_violation (checks : list (bool * string)) : option string :=
  snd <$> find (λ c, negb c.1) checks.

Definition insert_profiles_violation (d : db) (id : uuid) (r : Profiles.row)
    : option string :=
  first_violation [
    (role_check r, check_violation);
    (bool_decide (profiles d !! id = None), unique_violation);
    (email_unique d id r, unique_violation);
    (bool_decide (id ∈ auth_users d), foreign_key_violation);
    (references_user d (Profiles.created_by r), foreign_key_violation)
  ].

Definition update_profiles_violation (d : db) (id : uuid) (old new : Profiles.row)
    : option string :=
  first_violation [
    (role_check new, check_violation);
    (email_unique d id new, unique_violation);
    (bool_decide (Profiles.created_by new = Profiles.created_by old) ||
     references_user d (Profiles.created_by new), foreign_key_violation)
  ].

Definition insert_inquiries_violation (d : db) (id : uuid) (r : Inquiries.row)
    : option string :=
  first_violation [
    (status_check r, check_violation);
    (bool_decide (inquiries d !! id = None), unique_violation);
    (references_profile d (Inquiries.assigned_to r), foreign_key_violation);
    (references_profile d (Inquiries.created_by r), foreign_key_violation)
  ].

Definition update_inquiries_violation (d : db) (old new : Inquiries.row)
    : option string :=
  first_violation [
    (status_check new, check_violation);
    (bool_decide (Inquiries.assigned_to new = Inquiries.assigned_to old) ||
     references_profile d (Inquiries.assigned_to new), foreign_key_violation);
    (bool_decide (Inquiries.created_by new = Inquiries.created_by old) ||
     references_profile d (Inquiries.created_by new), foreign_key_violation)
  ].

Definition insert_follow_ups_violation (d : db) (id : uuid) (r : FollowUps.row)
    : option string :=
  first_violation [
    (bool_decide (follow_ups d !! id = None), unique_violation);
    (bool_decide (is_Some (inquiries d !! FollowUps.inquiry_id r)), foreign_key_violation);
    (references_profile d (FollowUps.created_by r), foreign_key_violation)
  ].

Definition update_follow_ups_violation (d : db) (old new : FollowUps.row)
    : option string :=
  first_violation [
    (bool_decide (FollowUps.inquiry_id new = FollowUps.inquiry_id old) ||
     bool_decide (is_Some (inquiries d !! FollowUps.inquiry_id new)), foreign_key_violation);
    (bool_decide (FollowUps.created_by new = FollowUps.created_by old) ||
     references_profile d (FollowUps.created_by new), foreign_key_violation)
  ].

(** A statement whose policies could be added, on a table with the policies
    [pols].

    [pg_insert]: a new row that fails [WITH CHECK] of the insert policies is
    an error. [pg_update] and [pg_delete]: the statement finds the row [id]
    only if the row passes [USING] of the policies of the command and of the
    select policies; a row it does not find is no error, the statement
    changes no row. The new row of an update has to pass [WITH CHECK] of the
    update policies and [USING] of the select policies, or the statement is
    an error. [d'] is the database with the change made. *)
Section statements.
Context {R : Type} (pols : list (policy R)) (d : db) (caller : option uuid).

Definition pg_insert (id : uuid) (new : R) (violation : option string) (d' : db)
    : pg_result * db :=
  if negb (passes_check pols INSERT d caller id new)
  then (error insufficient_privilege, d)
  else match violation with
       | Some e => (error e, d)
       | None => (affected 1, d')
       end.

Definition pg_update (id : uuid) (stored : option R) (proposed : R → R)
    (violation : R → R → option string) (d' : R → db) : pg_result * db :=
  match stored with
  | None => (affected 0, d)
  | Some old =>
      if negb (passes_using pols UPDATE d caller id old &&
               passes_using pols SELECT d caller id old)
      then (affected 0, d)
      else
        let new := proposed old in
        if negb (passes_check pols UPDATE d caller id new &&
                 passes_using pols SELECT d caller id new)
        then (error insufficient_privilege, d)
        else match violation old new with
             | Some e => (error e, d)
             | None => (affected 1, d' new)
             end
  end.

Definition pg_delete (id : uuid) (stored : option R) (d' : db) : pg_result * db :=
  match stored with
  | None => (affected 0, d)
  | Some old =>
      if negb (passes_using pols DELETE d caller id old &&
               passes_using pols SELECT d caller id old)
      then (affected 0, d)
      else (affected 1, d')
  end.
End statements.

(** [pg_exec now caller s d] runs the statement [s] for the session [caller]
    at time [now]. The policies are added first; the statement is run only
    if that goes through. The policy expressions are then evaluated as
    [passes_using] and [passes_check] do, which is right as long as no added
    policy has a sub-select; in this schema none has (lemma
    [expanded_without_policies]). *)
Definition pg_exec (now : timestamptz) (caller : option uuid) (s : statement) (d : db)
    : pg_result * db :=
  match rls_expand (session_role caller) (statement_command s) (statement_table s) with
  | recursion_in _ => (error invalid_object_definition, d)
  | out_of_fuel => (error statement_too_complex, d)
  | expanded =>
      match s with
      | INSERT_INTO_profiles id r =>
          pg_insert profiles_policies d caller id r (insert_profiles_violation d id r)
            (Db (auth_users d) (<[id:=r]> (profiles d)) (inquiries d) (follow_ups d))
      | UPDATE_profiles id set =>
          pg_update profiles_policies d caller id (profiles d !! id)
            (λ old, update_profiles_updated_at now (set old))
            (update_profiles_violation d id)
            (λ new, Db (auth_users d) (<[id:=new]> (profiles d)) (inquiries d)
                       (follow_ups d))
      | DELETE_FROM_profiles id =>
          pg_delete profiles_policies d caller id (profiles d !! id)
            (remove_profile now id d)
      | INSERT_INTO_inquiries id r =>
          pg_insert inquiries_policies d caller id r (insert_inquiries_violation d id r)
            (Db (auth_users d) (profiles d) (<[id:=r]> (inquiries d)) (follow_ups d))
      | UPDATE_inquiries id set =>
          pg_update inquiries_policies d caller id (inquiries d !! id)
            (λ old, update_inquiries_updated_at now (set old))
            (update_inquiries_violation d)
            (λ new, Db (auth_users d) (profiles d) (<[id:=new]> (inquiries d))
                       (follow_ups d))
      | DELETE_FROM_inquiries id =>
          pg_delete inquiries_policies d caller id (inquiries d !! id)
            (remove_inquiry id d)
      | INSERT_INTO_follow_ups id r =>
          pg_insert follow_ups_policies d caller id r (insert_follow_ups_violation d id r)
            (Db (auth_users d) (profiles d) (inquiries d) (<[id:=r]> (follow_ups d)))
      | UPDATE_follow_ups id set =>
          pg_update follow_ups_policies d caller id (follow_ups d !! id)
            set (update_follow_ups_violation d)
            (λ new, Db (auth_users d) (profiles d) (inquiries d)
                       (<[id:=new]> (follow_ups d)))
      | DELETE_FROM_follow_ups id =>
          pg_delete follow_ups_policies d caller id (follow_ups d !! id)
            (Db (auth_users d) (profiles d) (inquiries d) (delete id (follow_ups d)))
      end
  end.

(** A sequence of statements, each with its time and its session. *)
Fixpoint pg_run (ss : list (timestamptz * option uuid * statement)) (d : db) : db :=
  match ss with
  | [] => d
  | (now, caller, s) :: ss' => pg_run ss' (pg_exec now caller s d).2
  end.

(** [SELECT * FROM t]: the rows the select policies let through, when the
    policies could be added. *)
Definition pg_select {R} (t : table_name) (pols : list (policy R))
    (table : gmap uuid R) (d : db) (caller : option uuid) : string + gmap uuid R :=
  match rls_expand (session_role caller) SELECT t with
  | recursion_in _ => inl invalid_object_definition
  | out_of_fuel => inl statement_too_complex
  | expanded => inr (select_from pols table d caller)
  end.

Definition pg_select_profiles (d : db) (caller : option uuid)
    : string + gmap uuid Profiles.row :=
  pg_select on_profiles profiles_policies (profiles d) d caller.

Definition pg_select_inquiries (d : db) (caller : option uuid)
    : string + gmap uuid Inquiries.row :=
  pg_select on_inquiries inquiries_policies (inquiries d) d caller.

Definition pg_select_follow_ups (d : db) (caller : option uuid)
    : string + gmap uuid FollowUps.row :=
  pg_select on_follow_ups follow_ups_policies (follow_ups d) d caller.

(** The events that delete the profile row of a user: the identity provider
    removing the account, which the foreign key of [profiles.id] passes on,
    or a [DELETE] on [profiles]. *)
Definition deletes_profile (e : event) : option uuid :=
  match e with
  | UserDeleted uid => Some uid
  | Statement _ (delete_profiles pid) => Some pid
  | _ => None
  end.

(** ** Referential integrity

    The foreign keys and [CHECK]s of the schema, as a property of a database. *)
Record wf (d : db) : Prop := Wf {
  wf_profiles_id : ∀ k p, profiles d !! k = Some p → k ∈ auth_users d;
  wf_profiles_created_by : ∀ k p u,
    profiles d !! k = Some p → Profiles.created_by p = Some u → u ∈ auth_users d;
  wf_profiles_role : ∀ k p,
    profiles d !! k = Some p → Profiles.role p ∈ ["admin"; "co_leader"; "employee"];
  wf_inquiries_assigned_to : ∀ k i u,
    inquiries d !! k = Some i → Inquiries.assigned_to i = Some u →
    is_Some (profiles d !! u);
  wf_inquiries_created_by : ∀ k i u,
    inquiries d !! k = Some i → Inquiries.created_by i = Some u →
    is_Some (profiles d !! u);
  wf_inquiries_status : ∀ k i,
    inquiries d !! k = Some i → Inquiries.status i ∈ ["pending"; "converted"; "dropped"];
  wf_follow_ups_inquiry_id : ∀ k f,
    follow_ups d !! k = Some f → is_Some (inquiries d !! FollowUps.inquiry_id f);
  wf_follow_ups_created_by : ∀ k f u,
    follow_ups d !! k = Some f → FollowUps.created_by f = Some u →
    is_Some (profiles d !! u)
}.

(** No follow-up without its inquiry. *)
Definition no_orphans (d : db) : Prop :=
  ∀ k f, follow_ups d !! k = Some f → is_Some (inquiries d !! FollowUps.inquiry_id f).

(** ** Reference rows for profile deletion

    [null_if pid c] is the column [c] with a reference to [pid] replaced by
    [NULL]. [inquiry_refs_nulled] and [follow_up_refs_nulled] are a row with
    only that done to its referencing columns. [inquiry_after_profile_delete]
    is the same inquiry with, in addition, [updated_at] set to the time of
    the delete when the row referred to the profile. *)

Definition null_if (pid : uuid) (c : option uuid) : option uuid :=
  if bool_decide (c = Some pid) then None else c.

Definition inquiry_refs_nulled (pid : uuid) (i : Inquiries.row) : Inquiries.row :=
  Inquiries.Row (Inquiries.student_name i) (Inquiries.contact_number i)
    (Inquiries.email i) (Inquiries.course_interested i) (Inquiries.more_input i)
    (Inquiries.status i) (null_if pid (Inquiries.assigned_to i))
    (null_if pid (Inquiries.created_by i)) (Inquiries.created_at i)
    (Inquiries.updated_at i).

Definition follow_up_refs_nulled (pid : uuid) (f : FollowUps.row) : FollowUps.row :=
  FollowUps.Row (FollowUps.inquiry_id f) (FollowUps.notes f)
    (FollowUps.follow_up_date f) (FollowUps.voice_recording_url f)
    (null_if pid (FollowUps.created_by f)) (FollowUps.created_at f).

Definition refers_to (pid : uuid) (i : Inquiries.row) : bool :=
  bool_decide (Inquiries.assigned_to i = Some pid) ||
  bool_decide (Inquiries.created_by i = Some pid).

Definition inquiry_after_profile_delete (now : timestamptz) (pid : uuid)
    (i : Inquiries.row) : Inquiries.row :=
  Inquiries.Row (Inquiries.student_name i) (Inquiries.contact_number i)
    (Inquiries.email i) (Inquiries.course_interested i) (Inquiries.more_input i)
    (Inquiries.status i) (null_if pid (Inquiries.assigned_to i))
    (null_if pid (Inquiries.created_by i)) (Inquiries.created_at i)
    (if refers_to pid i then Some now else Inquiries.updated_at i).

(** ** Profiles that differ in [is_active] only *)

Definition set_is_active (b : option bool) (p : Profiles.row) : Profiles.row :=
  Profiles.Row (Profiles.email p) (Profiles.full_name p) (Profiles.role p)
    (Profiles.created_by p) b (Profiles.created_at p) (Profiles.updated_at p).

(** The database [d] with the [is_active] of every profile [k] replaced by
    [g k]. *)
Definition with_is_active (g : uuid → option bool) (d : db) : db :=
  Db (auth_users d)
     (map_imap (λ k p, Some (set_is_active (g k) p)) (profiles d))
     (inquiries d)
     (follow_ups d).

(** An expression ignores [is_active] when its value is the same in [d] and
    in [d] with other [is_active] values. *)
Definition ignores_is_active {R} (e : expr R) : Prop :=
  ∀ g d caller id r, e (with_is_active g d) caller id r = e d caller id r.

Definition policy_ignores_is_active {R} (p : policy R) : Prop :=
  ignores_is_active (using_expr p) ∧ ignores_is_active (check_expr p).

(** ** A small academy

    One admin to begin with; a co-leader and two employees are provisioned,
    and inquiries and follow-ups are entered and assigned. The rows are the
    ones the policies as they are worded would let these users enter; as a
    state of the three tables it does not depend on who entered them. *)

Definition admin_A : Profiles.row :=
  Profiles.Row "asha@academy.test" "Asha" "admin" None (Some true) (Some 0%Z) (Some 0%Z).
Definition co_leader_C : Profiles.row :=
  Profiles.Row "chitra@academy.test" "Chitra" "co_leader" (Some 1%N) (Some true)
    (Some 1%Z) (Some 1%Z).
Definition employee_B : Profiles.row :=
  Profiles.Row "bala@academy.test" "Bala" "employee" (Some 1%N) (Some true)
    (Some 2%Z) (Some 2%Z).
Definition employee_E : Profiles.row :=
  Profiles.Row "ezhil@academy.test" "Ezhil" "employee" (Some 1%N) (Some false)
    (Some 3%Z) (Some 3%Z).

Definition inquiry_1 (assignee : option uuid) : Inquiries.row :=
  Inquiries.Row "Kavin" "9000000001" None "Physics" None "pending" assignee (Some 2%N)
    (Some 4%Z) (Some 4%Z).
Definition inquiry_2 : Inquiries.row :=
  Inquiries.Row "Meena" "9000000002" (Some "meena@mail.test") "Maths" (Some "evening batch")
    "pending" (Some 4%N) (Some 1%N) (Some 6%Z) (Some 6%Z).

Definition follow_up_1 : FollowUps.row :=
  FollowUps.Row 10%N "called, will visit" 20%Z None (Some 3%N) (Some 7%Z).
Definition follow_up_2 : FollowUps.row :=
  FollowUps.Row 11%N "no answer" 21%Z None (Some 1%N) (Some 8%Z).

Definition seed_db : db := Db {[1%N]} {[1%N := admin_A]} ∅ ∅.

Definition history : list (timestamptz * event) := [
  (1%Z, UserCreated 2%N);
  (1%Z, Statement (Some 1%N) (insert_profiles 2%N co_leader_C));
  (2%Z, UserCreated 3%N);
  (2%Z, Statement (Some 1%N) (insert_profiles 3%N employee_B));
  (3%Z, UserCreated 4%N);
  (3%Z, Statement (Some 1%N) (insert_profiles 4%N employee_E));
  (4%Z, Statement (Some 2%N) (insert_inquiries 10%N (inquiry_1 None)));
  (5%Z, Statement (Some 1%N) (update_inquiries 10%N (inquiry_1 (Some 3%N))));
  (6%Z, Statement (Some 1%N) (insert_inquiries 11%N inquiry_2));
  (7%Z, Statement (Some 3%N) (insert_follow_ups 20%N follow_up_1));
  (8%Z, Statement (Some 1%N) (insert_follow_ups 21%N follow_up_2))
].

Definition academy : db := run history seed_db.

(** ** [UNIQUE] on [profiles.email]

    No two profile rows have the same email. *)
Definition emails_unique (d : db) : Prop :=
  ∀ k1 k2 p1 p2,
    profiles d !! k1 = Some p1 → profiles d !! k2 = Some p2 →
    Profiles.email p1 = Profiles.email p2 → k1 = k2.

(** ** The client

    The pages and dialogs of the web client, as far as they decide what to
    send and what to keep of the answer. [profile] is the profile the
    session holds: a row of [profiles] with its id, or nothing. A [uuid]
    reaches the client as a string; two of them are the same string exactly
    when they are the same id. The client sends every statement with the
    token of its session, so its statements run as [pg_exec] and [pg_select]
    say. *)

(** [profile?.role === s] *)
Definition role_is (profile : option (uuid * Profiles.row)) (s : string) : bool :=
  match profile with
  | Some (_, p) => bool_decide (Profiles.role p = s)
  | None => false
  end.

(** [s || null]: the empty string is falsy. *)
Definition or_null (s : string) : option string :=
  match s with
  | EmptyString => None
  | _ => Some s
  end.

(** A handler that sent its statement has the answer to it. *)
Definition sent (r : pg_result * db) : option pg_result * db := (Some r.1, r.2).

(** [InquiryDetailsModal.handleUpdateInquiry]:
    [supabase.from('inquiries').update(payload).eq('id', inquiry.id)] with
    the payload [{ status: updatedStatus, more_input: updatedMoreInput || null }]. *)
Definition set_status_and_more_input (updatedStatus updatedMoreInput : string)
    (old : Inquiries.row) : Inquiries.row :=
  Inquiries.Row (Inquiries.student_name old) (Inquiries.contact_number old)
    (Inquiries.email old) (Inquiries.course_interested old)
    (or_null updatedMoreInput) updatedStatus
    (Inquiries.assigned_to old) (Inquiries.created_by old)
    (Inquiries.created_at old) (Inquiries.updated_at old).

Definition handleUpdateInquiry (now : timestamptz) (caller : option uuid)
    (inquiry_id : uuid) (updatedStatus updatedMoreInput : string) (d : db)
    : pg_result * db :=
  pg_exec now caller
    (UPDATE_inquiries inquiry_id
       (set_status_and_more_input updatedStatus updatedMoreInput)) d.

(** [InquiryDetailsModal.handleDeleteInquiry]: nothing is sent unless the
    user confirms. *)
Definition handleDeleteInquiry (now : timestamptz) (caller : option uuid)
    (inquiry_id : uuid) (confirm : bool) (d : db) : option pg_result * db :=
  if negb confirm then (None, d)
  else sent (pg_exec now caller (DELETE_FROM_inquiries inquiry_id) d).

(** [AssignInquiryModal.handleAssign]: nothing is sent while no counselor is
    selected ([if (!selectedEmployee) return]); otherwise the payload is
    [{ assigned_to: selectedEmployee }]. *)
Definition set_assigned_to (selectedEmployee : uuid) (old : Inquiries.row) : Inquiries.row :=
  Inquiries.Row (Inquiries.student_name old) (Inquiries.contact_number old)
    (Inquiries.email old) (Inquiries.course_interested old)
    (Inquiries.more_input old) (Inquiries.status old)
    (Some selectedEmployee) (Inquiries.created_by old)
    (Inquiries.created_at old) (Inquiries.updated_at old).

Definition handleAssign (now : timestamptz) (caller : option uuid)
    (inquiry_id : uuid) (selectedEmployee : option uuid) (d : db)
    : option pg_result * db :=
  match selectedEmployee with
  | None => (None, d)
  | Some e => sent (pg_exec now caller (UPDATE_inquiries inquiry_id (set_assigned_to e)) d)
  end.

(** [AddInquiryModal]: the form, and [handleSubmit]. The row sent is
    [{ ...formData, email: formData.email || null,
       more_input: formData.more_input || null,
       created_by: profile?.id, status: 'pending' }];
    the columns it leaves out take their defaults: [id] a fresh
    [gen_random_uuid()], here [new_id], [assigned_to] [NULL], [created_at] and
    [updated_at] [now()]. *)
Module AddInquiryModal.
Record formData := FormData {
  student_name : string;
  contact_number : string;
  email : string;
  course_interested : string;
  more_input : string
}.

Definition row (now : timestamptz) (profile : option (uuid * Profiles.row))
    (form : formData) : Inquiries.row :=
  Inquiries.Row (student_name form) (contact_number form) (or_null (email form))
    (course_interested form) (or_null (more_input form)) "pending" None
    (fst <$> profile) (Some now) (Some now).

Definition handleSubmit (now : timestamptz) (caller : option uuid)
    (profile : option (uuid * Profiles.row)) (new_id : uuid) (form : formData)
    (d : db) : pg_result * db :=
  pg_exec now caller (INSERT_INTO_inquiries new_id (row now profile form)) d.
End AddInquiryModal.

(** [InquiryDetailsModal.handleAddFollowUp]. [voice] is what became of the
    recording: [None] when no file was chosen, [Some None] when the upload
    failed, in which case nothing is inserted, [Some (Some url)] when it went
    through and [url] is its public URL. The row sent is
    [{ inquiry_id, notes, follow_up_date, voice_recording_url: voiceUrl,
       created_by: profile?.id }]; [id] and [created_at] take their defaults. *)
Definition follow_up_row (now : timestamptz) (profile : option (uuid * Profiles.row))
    (inquiry_id : uuid) (notes : string) (follow_up_date : timestamptz)
    (voiceUrl : option string) : FollowUps.row :=
  FollowUps.Row inquiry_id notes follow_up_date voiceUrl (fst <$> profile) (Some now).

Definition handleAddFollowUp (now : timestamptz) (caller : option uuid)
    (profile : option (uuid * Profiles.row)) (new_id inquiry_id : uuid)
    (notes : string) (follow_up_date : timestamptz) (voice : option (option string))
    (d : db) : option pg_result * db :=
  match voice with
  | Some None => (None, d)
  | _ =>
      sent (pg_exec now caller
              (INSERT_INTO_follow_ups new_id
                 (follow_up_row now profile inquiry_id notes follow_up_date
                    (mjoin voice))) d)
  end.

(** [CoLeaders.handleDemoteToEmployee]: nothing is sent unless the user
    confirms; the payload is [{ role: 'employee' }]. *)
Definition set_role (role : string) (old : Profiles.row) : Profiles.row :=
  Profiles.Row (Profiles.email old) (Profiles.full_name old) role
    (Profiles.created_by old) (Profiles.is_active old) (Profiles.created_at old)
    (Profiles.updated_at old).

Definition handleDemoteToEmployee (now : timestamptz) (caller : option uuid)
    (coLeader : uuid) (confirm : bool) (d : db) : option pg_result * db :=
  if negb confirm then (None, d)
  else sent (pg_exec now caller (UPDATE_profiles coLeader (set_role "employee")) d).

(** [Employees.toggleActiveStatus]: the payload is
    [{ is_active: !employee.is_active }], from the copy of the row the page
    holds. *)
Definition toggleActiveStatus (now : timestamptz) (caller : option uuid)
    (employee : uuid * Profiles.row) (d : db) : pg_result * db :=
  pg_exec now caller
    (UPDATE_profiles employee.1
       (set_is_active (Some (negb (default false (Profiles.is_active employee.2)))))) d.

(** [Inquiries.filterInquiries]. [toLowerCase] and [includes] are the string
    methods of the language; [s.includes(t)] is [includes s t]. An empty
    search term is falsy and filters nothing, and so does the status ['all'];
    an inquiry without email does not match by email. *)
Section filterInquiries.
Variable toLowerCase : string → string.
Variable includes : string → string → bool.

Definition matches_search (searchTerm : string) (inquiry : Inquiries.row) : bool :=
  includes (toLowerCase (Inquiries.student_name inquiry)) (toLowerCase searchTerm) ||
  includes (Inquiries.contact_number inquiry) searchTerm ||
  match Inquiries.email inquiry with
  | Some e => includes (toLowerCase e) (toLowerCase searchTerm)
  | None => false
  end ||
  includes (toLowerCase (Inquiries.course_interested inquiry)) (toLowerCase searchTerm).

Definition filterInquiries (searchTerm statusFilter : string)
    (inquiries : list (uuid * Inquiries.row)) : list (uuid * Inquiries.row) :=
  let filtered :=
    match searchTerm with
    | EmptyString => inquiries
    | _ => filter (λ kr, matches_search searchTerm kr.2 = true) inquiries
    end in
  if bool_decide (statusFilter = "all") then filtered
  else filter (λ kr, Inquiries.status kr.2 = statusFilter) filtered.
End filterInquiries.

(** [Layout]: the navigation items, each with its [href] and the roles it is
    for, and [filteredNavigation], the items whose roles include
    [profile?.role || '']. *)
Definition navigation : list (string * string * list string) := [
  ("Dashboard", "/dashboard", ["admin"; "co_leader"; "employee"]);
  ("Student Inquiries", "/inquiries", ["admin"; "co_leader"; "employee"]);
  ("Employees", "/employees", ["admin"]);
  ("Co-Leaders", "/co-leaders", ["admin"]);
  ("Analytics", "/analytics", ["admin"; "co_leader"])
].

Definition filteredNavigation (profile : option (uuid * Profiles.row))
    : list (string * string * list string) :=
  filter (λ item, from_option (λ up, Profiles.role up.2) "" profile ∈ item.2) navigation.

(** [App]: the protected routes, each with its [allowedRoles] where the
    route gives any. *)
Definition routes : list (string * option (list string)) := [
  ("/dashboard", None);
  ("/inquiries", None);
  ("/employees", Some ["admin"]);
  ("/co-leaders", Some ["admin"]);
  ("/analytics", Some ["admin"; "co_leader"])
].

(** *** Queries

    [ORDER BY created_at DESC] puts [NULL]s first and leaves the order of
    rows with equal keys open, so a query does not determine one list: any
    list of the selected rows in that order may come back. *)

Definition created_at_desc (x y : option timestamptz) : Prop :=
  match x, y with
  | None, _ => True
  | Some _, None => False
  | Some a, Some b => (b ≤ a)%Z
  end.

Definition returns_ordered {R} (created_at : R → option timestamptz)
    (rows : gmap uuid R) (data : list (uuid * R)) : Prop :=
  data ≡ₚ map_to_list rows ∧
  StronglySorted (λ x y, created_at_desc (created_at x.2) (created_at y.2)) data.

(** [.eq('assigned_to', profile.id)], which [loadInquiries] and
    [loadDashboardData] add for an employee. *)
Definition assigned_to_profile (profile : option (uuid * Profiles.row))
    (rows : gmap uuid Inquiries.row) : gmap uuid Inquiries.row :=
  if role_is profile "employee"
  then filter (λ kr, Sql.is_true (Sql.eq (Inquiries.assigned_to kr.2) (fst <$> profile))
                     = true) rows
  else rows.

(** The embedded [profiles!..._fkey(full_name)] of a row that refers to the
    profile [u]: the name in that profile, among the profiles the query can
    read. *)
Definition full_name_of (names : gmap uuid Profiles.row) (u : option uuid)
    : option string :=
  k ← u; Profiles.full_name <$> names !! k.

(** [Inquiries.loadInquiries] sends
    [select(`*, assigned_user:profiles!inquiries_assigned_to_fkey(full_name)`)],
    which reads [inquiries] and [profiles]. *)
Definition loadInquiries_query (d : db) (caller : option uuid)
    (profile : option (uuid * Profiles.row))
    : string + gmap uuid (Inquiries.row * option string) :=
  match pg_select_inquiries d caller, pg_select_profiles d caller with
  | inr rows, inr names =>
      inr ((λ i, (i, full_name_of names (Inquiries.assigned_to i))) <$>
           assigned_to_profile profile rows)
  | inl e, _ => inl e
  | _, inl e => inl e
  end.

(** [if (error) throw error; setInquiries(data || [])]: [inquiries] is the
    list the page holds before the answer, [inquiries'] the one after. *)
Definition loadInquiries (d : db) (caller : option uuid)
    (profile : option (uuid * Profiles.row))
    (inquiries inquiries' : list (uuid * (Inquiries.row * option string))) : Prop :=
  match loadInquiries_query d caller profile with
  | inl _ => inquiries' = inquiries
  | inr rows => returns_ordered (λ r, Inquiries.created_at r.1) rows inquiries'
  end.

(** [InquiryDetailsModal.loadFollowUps] sends
    [select(`*, creator:profiles!follow_ups_created_by_fkey(full_name)`)]
    with [.eq('inquiry_id', inquiry.id)]. *)
Definition loadFollowUps_query (d : db) (caller : option uuid) (inquiry_id : uuid)
    : string + gmap uuid (FollowUps.row * option string) :=
  match pg_select_follow_ups d caller, pg_select_profiles d caller with
  | inr rows, inr names =>
      inr ((λ f, (f, full_name_of names (FollowUps.created_by f))) <$>
           filter (λ kr, FollowUps.inquiry_id kr.2 = inquiry_id) rows)
  | inl e, _ => inl e
  | _, inl e => inl e
  end.

Definition loadFollowUps (d : db) (caller : option uuid) (inquiry_id : uuid)
    (followUps followUps' : list (uuid * (FollowUps.row * option string))) : Prop :=
  match loadFollowUps_query d caller inquiry_id with
  | inl _ => followUps' = followUps
  | inr rows => returns_ordered (λ r, FollowUps.created_at r.1) rows followUps'
  end.

(** *** Counts

    [Dashboard.loadDashboardData] and [Analytics.loadAnalytics] count the
    inquiries they loaded, [null] counting as none:
    [inquiries?.length || 0] and
    [inquiries?.filter((i) => i.status === s).length || 0]. *)
Record KPIData := KPI { total : nat; converted : nat; dropped : nat; pending : nat }.

Definition count_status (s : string) (inquiries : option (list (uuid * Inquiries.row)))
    : nat :=
  match inquiries with
  | Some l => length (filter (λ kr, Inquiries.status kr.2 = s) l)
  | None => 0
  end.

Definition kpiData (inquiries : option (list (uuid * Inquiries.row))) : KPIData :=
  KPI (from_option length 0 inquiries)
      (count_status "converted" inquiries)
      (count_status "dropped" inquiries)
      (count_status "pending" inquiries).

(** [Dashboard.loadDashboardData]: [if (error) throw error] comes before
    [setKpiData], so an error leaves the figures the page holds, [kpi], as
    they are. *)
Definition loadDashboardData (d : db) (caller : option uuid)
    (profile : option (uuid * Profiles.row)) (kpi : KPIData) : KPIData :=
  match pg_select_inquiries d caller with
  | inl _ => kpi
  | inr rows => kpiData (Some (map_to_list (assigned_to_profile profile rows)))
  end.

(** ** Tactics

    [policy_cases] evaluates a policy set on the command asked for;
    [exec_cases] follows the branches of [exec]; [ignores_row] closes the
    goals about expressions that do not look at the database. *)

Ltac policy_cases caller :=
  unfold visible, insert_allowed, update_allowed, delete_allowed,
    passes_using, passes_check, applies, using_expr, check_expr;
  destruct caller as [?u|]; cbn [existsb profiles_policies inquiries_policies
    follow_ups_policies pol_cmd pol_to pol_using pol_with_check command_eqb
    db_role_eqb session_role andb orb];
  rewrite ?orb_false_r, ?andb_true_iff, ?orb_true_iff.

Ltac exec_cases :=
  unfold exec;
  repeat (match goal with
          | |- context [match ?m !! ?k with _ => _ end] => destruct (m !! k) eqn:?
          | |- context [if negb ?b then _ else _] => destruct b eqn:?
          end; cbn [negb fst snd]).

Ltac ignores_row :=
  intros ? ? ? ? ?; reflexivity.

(** * Properties *)

(** ** Reading the policy expressions *)

Lemma existsb_map_to_list {V} (m : gmap uuid V) (f : uuid * V → bool) :
  existsb f (map_to_list m) = true ↔ ∃ k v, m !! k = Some v ∧ f (k, v) = true.
Proof.
  rewrite existsb_exists. split.
  - intros [[k v] [Hin Hf]].
    exists k, v. split; [|done].
    apply elem_of_map_to_list. by apply list_elem_of_In.
  - intros (k & v & Hl & Hf). exists (k, v). split; [|done].
    apply list_elem_of_In. by apply elem_of_map_to_list.
Qed.

Lemma exists_profile_spec d wh :
  exists_profile d wh = true ↔
  ∃ k p, profiles d !! k = Some p ∧ Sql.is_true (wh k p) = true.
Proof. unfold exists_profile. by rewrite existsb_map_to_list. Qed.

Lemma sql_is_true_Some b : Sql.is_true (Some b) = b.
Proof. by destruct b. Qed.

Lemma sql_eq_true {A} `{EqDecision A} (x y : option A) :
  Sql.is_true (Sql.eq x y) = true ↔ ∃ a, x = Some a ∧ y = Some a.
Proof.
  destruct x as [a|], y as [b|]; unfold Sql.eq, Sql.is_true.
  - case_bool_decide as Hab; split.
    + intros _. exists a. by rewrite Hab.
    + done.
    + done.
    + intros (c & [= ->] & [= ->]). done.
  - split; [done|]. by intros (c & _ & [=]).
  - split; [done|]. by intros (c & [=] & _).
  - split; [done|]. by intros (c & [=] & _).
Qed.

Lemma sql_and_true x y :
  Sql.is_true (Sql.and x y) = true ↔ Sql.is_true x = true ∧ Sql.is_true y = true.
Proof. destruct x as [[]|], y as [[]|]; simpl; intuition discriminate. Qed.

Lemma sql_or_true x y :
  Sql.is_true (Sql.or x y) = true ↔ Sql.is_true x = true ∨ Sql.is_true y = true.
Proof. destruct x as [[]|], y as [[]|]; simpl; intuition discriminate. Qed.

Lemma sql_in_true {A} `{EqDecision A} (a : A) (vs : list A) :
  Sql.is_true (Sql.in_ (Some a) vs) = true ↔ a ∈ vs.
Proof.
  induction vs as [|v vs IH]; cbn [Sql.in_].
  - split; [done | by intros ?%elem_of_nil].
  - rewrite sql_or_true, sql_eq_true, IH, elem_of_cons. split.
    + intros [(c & [= ->] & [= ->])|?]; auto.
    + intros [->|?]; eauto.
Qed.

Lemma caller_has_role_spec d caller (P : string → option bool) :
  exists_profile d (λ p_id p, Sql.and (Sql.eq (Some p_id) caller) (P (Profiles.role p)))
    = true ↔
  ∃ r, caller_role d caller = Some r ∧ Sql.is_true (P r) = true.
Proof.
  rewrite exists_profile_spec. unfold caller_role. split.
  - intros (k & p & Hk & [Hid HP]%sql_and_true).
    apply sql_eq_true in Hid as (a & [= <-] & ->).
    exists (Profiles.role p). simpl. by rewrite Hk.
  - intros (r & Hr & HP). destruct caller as [u|]; [|done]. simpl in Hr.
    destruct (profiles d !! u) as [p|] eqn:Hu; [|done]. injection Hr as <-.
    exists u, p. split; [done|]. apply sql_and_true. split; [|done].
    apply sql_eq_true. eauto.
Qed.

Lemma caller_is_admin_true {R} d caller id (r : R) :
  Sql.is_true (caller_is_admin d caller id r) = true ↔
  caller_role d caller = Some "admin".
Proof.
  unfold caller_is_admin.
  rewrite sql_is_true_Some.
  rewrite (caller_has_role_spec d caller (λ s, Sql.eq (Some s) (Some "admin"))).
  split.
  - intros (s & Hs & (a & [= ->] & [= <-])%sql_eq_true). done.
  - intros H. exists "admin". split; [done|]. apply sql_eq_true. eauto.
Qed.

Lemma caller_is_co_leader_true {R} d caller id (r : R) :
  Sql.is_true (caller_is_co_leader d caller id r) = true ↔
  caller_role d caller = Some "co_leader".
Proof.
  unfold caller_is_co_leader.
  rewrite sql_is_true_Some.
  rewrite (caller_has_role_spec d caller (λ s, Sql.eq (Some s) (Some "co_leader"))).
  split.
  - intros (s & Hs & (a & [= ->] & [= <-])%sql_eq_true). done.
  - intros H. exists "co_leader". split; [done|]. apply sql_eq_true. eauto.
Qed.

Lemma caller_is_admin_or_co_leader_true {R} d caller id (r : R) :
  Sql.is_true (caller_is_admin_or_co_leader d caller id r) = true ↔
  caller_role d caller = Some "admin" ∨ caller_role d caller = Some "co_leader".
Proof.
  unfold caller_is_admin_or_co_leader.
  rewrite sql_is_true_Some.
  rewrite (caller_has_role_spec d caller (λ s, Sql.in_ (Some s) ["admin"; "co_leader"])).
  split.
  - intros (s & Hs & Hin%sql_in_true).
    apply elem_of_cons in Hin as [->|Hin]; [by left|].
    apply elem_of_cons in Hin as [->|Hin]; [by right|]. by apply elem_of_nil in Hin.
  - intros [H|H]; eexists; (split; [exact H|]); apply sql_in_true.
    + apply elem_of_cons. by left.
    + apply elem_of_cons. right. apply elem_of_cons. by left.
Qed.

Lemma sql_eq_caller_true (x caller : option uuid) :
  Sql.is_true (Sql.eq x caller) = true ↔ is_Some caller ∧ x = caller.
Proof.
  rewrite sql_eq_true. split.
  - intros (a & -> & ->). eauto.
  - intros [[a ->] ->]. eauto.
Qed.

(** ** The policy sets, read as conditions on the caller and the row *)

Lemma profiles_select_spec d caller id r :
  visible profiles_policies d caller id r = true ↔
  caller_role d caller = Some "admin" ∨ caller_role d caller = Some "co_leader" ∨
  caller = Some id.
Proof.
  policy_cases caller.
  - rewrite caller_is_admin_true, caller_is_co_leader_true, sql_eq_caller_true.
    intuition (eauto; congruence).
  - simpl. intuition discriminate.
Qed.

Lemma profiles_insert_spec d caller id r :
  insert_allowed profiles_policies d caller id r = true ↔
  caller_role d caller = Some "admin".
Proof.
  policy_cases caller.
  - by rewrite caller_is_admin_true.
  - simpl. intuition discriminate.
Qed.

Lemma profiles_update_spec d caller id old new :
  update_allowed profiles_policies d caller id old new = true ↔
  caller_role d caller = Some "admin".
Proof.
  policy_cases caller.
  - rewrite !caller_is_admin_true. tauto.
  - simpl. intuition discriminate.
Qed.

Lemma profiles_delete_spec d caller id old :
  delete_allowed profiles_policies d caller id old = true ↔
  caller_role d caller = Some "admin".
Proof.
  policy_cases caller.
  - by rewrite caller_is_admin_true.
  - simpl. intuition discriminate.
Qed.

Lemma inquiries_select_spec d caller id i :
  visible inquiries_policies d caller id i = true ↔
  (caller_role d caller = Some "admin" ∨ caller_role d caller = Some "co_leader") ∨
  (is_Some caller ∧ Inquiries.assigned_to i = caller).
Proof.
  policy_cases caller.
  - by rewrite caller_is_admin_or_co_leader_true, sql_eq_caller_true.
  - simpl. split; [intuition discriminate|]. intros [[|]|[[] _]]; discriminate.
Qed.

Lemma inquiries_insert_spec d caller id i :
  insert_allowed inquiries_policies d caller id i = true ↔
  caller_role d caller = Some "admin" ∨ caller_role d caller = Some "co_leader".
Proof.
  policy_cases caller.
  - by rewrite caller_is_admin_or_co_leader_true.
  - simpl. intuition discriminate.
Qed.

Lemma inquiries_update_spec d caller id old new :
  update_allowed inquiries_policies d caller id old new = true ↔
  ((caller_role d caller = Some "admin" ∨ caller_role d caller = Some "co_leader") ∨
   (is_Some caller ∧ Inquiries.assigned_to old = caller)) ∧
  ((caller_role d caller = Some "admin" ∨ caller_role d caller = Some "co_leader") ∨
   (is_Some caller ∧ Inquiries.assigned_to new = caller)).
Proof.
  policy_cases caller.
  - by rewrite !caller_is_admin_or_co_leader_true, !sql_eq_caller_true.
  - simpl. split; [intuition discriminate|].
    intros [[[|]|[[] _]] _]; discriminate.
Qed.

Lemma inquiries_delete_spec d caller id old :
  delete_allowed inquiries_policies d caller id old = true ↔
  caller_role d caller = Some "admin".
Proof.
  policy_cases caller.
  - by rewrite caller_is_admin_true.
  - simpl. intuition discriminate.
Qed.

Lemma parent_inquiry_accessible_true d caller id f :
  Sql.is_true (parent_inquiry_accessible d caller id f) = true ↔
  ∃ i p u, caller = Some u ∧
    inquiries d !! FollowUps.inquiry_id f = Some i ∧ profiles d !! u = Some p ∧
    (Profiles.role p ∈ ["admin"; "co_leader"] ∨ Inquiries.assigned_to i = Some u).
Proof.
  unfold parent_inquiry_accessible. rewrite sql_is_true_Some, existsb_map_to_list.
  split.
  - intros (ki & i & Hi & (kp & p & Hp & Hw)%existsb_map_to_list).
    cbn [fst snd] in Hw. apply andb_true_iff in Hw as [Hj Hw].
    apply sql_eq_caller_true in Hj as [_ <-].
    apply sql_and_true in Hw as [Hid Hacc].
    apply sql_eq_true in Hid as (a & [= ->] & [= Hf]).
    apply sql_or_true in Hacc. rewrite sql_in_true, sql_eq_true in Hacc.
    exists i, p, kp. rewrite Hf. repeat split; try done.
    destruct Hacc as [?|(b & -> & [= ->])]; auto.
  - intros (i & p & u & -> & Hi & Hp & Hacc).
    exists (FollowUps.inquiry_id f), i. split; [done|].
    apply existsb_map_to_list. exists u, p. split; [done|]. cbn [fst snd].
    apply andb_true_iff. split; [apply sql_eq_true; eauto|].
    apply sql_and_true. split; [apply sql_eq_true; eauto|].
    apply sql_or_true. rewrite sql_in_true, sql_eq_true.
    destruct Hacc as [?|Ha]; [|rewrite Ha]; eauto.
Qed.

Lemma follow_ups_select_spec d caller id f :
  visible follow_ups_policies d caller id f = true ↔
  Sql.is_true (parent_inquiry_accessible d caller id f) = true.
Proof.
  policy_cases caller; [tauto|].
  split; [discriminate|].
  by intros (? & ? & ? & ? & _)%parent_inquiry_accessible_true.
Qed.

Lemma follow_ups_insert_spec d caller id f :
  insert_allowed follow_ups_policies d caller id f = true ↔
  Sql.is_true (parent_inquiry_accessible d caller id f) = true.
Proof.
  policy_cases caller; [tauto|].
  split; [discriminate|].
  by intros (? & ? & ? & ? & _)%parent_inquiry_accessible_true.
Qed.

Lemma follow_ups_update_spec d caller id old new :
  update_allowed follow_ups_policies d caller id old new = true ↔
  is_Some caller ∧ FollowUps.created_by old = caller ∧ FollowUps.created_by new = caller.
Proof.
  policy_cases caller.
  - rewrite !sql_eq_caller_true. intuition eauto.
  - simpl. split; [discriminate|]. by intros [[] _].
Qed.

Lemma follow_ups_delete_spec d caller id old :
  delete_allowed follow_ups_policies d caller id old = false.
Proof. by policy_cases caller. Qed.

(** ** Constraints, read as conditions on the row *)

Lemma role_check_spec r :
  role_check r = true ↔ Profiles.role r ∈ ["admin"; "co_leader"; "employee"].
Proof.
  unfold role_check. rewrite negb_true_iff, bool_decide_eq_false, <- sql_in_true.
  destruct (Sql.in_ _ _) as [[]|] eqn:E; simpl; [intuition congruence| |].
  - split; [by intros []|discriminate].
  - exfalso. revert E. generalize (Profiles.role r). intros s.
    unfold Sql.in_, Sql.eq, Sql.or. by repeat case_bool_decide.
Qed.

Lemma status_check_spec r :
  status_check r = true ↔ Inquiries.status r ∈ ["pending"; "converted"; "dropped"].
Proof.
  unfold status_check. rewrite negb_true_iff, bool_decide_eq_false, <- sql_in_true.
  destruct (Sql.in_ _ _) as [[]|] eqn:E; simpl; [intuition congruence| |].
  - split; [by intros []|discriminate].
  - exfalso. revert E. generalize (Inquiries.status r). intros s.
    unfold Sql.in_, Sql.eq, Sql.or. by repeat case_bool_decide.
Qed.

Lemma references_user_spec d c :
  references_user d c = true ↔ ∀ u, c = Some u → u ∈ auth_users d.
Proof.
  destruct c as [u|]; simpl.
  - rewrite bool_decide_eq_true. split; [by intros ? ? [= <-]|eauto].
  - split; [by intros|done].
Qed.

Lemma references_profile_spec d c :
  references_profile d c = true ↔ ∀ u, c = Some u → is_Some (profiles d !! u).
Proof.
  destruct c as [u|]; simpl.
  - rewrite bool_decide_eq_true. split; [by intros ? ? [= <-]|eauto].
  - split; [by intros|done].
Qed.

(** ** What the referential actions leave in a row *)

Lemma inquiries_set_null_assigned_to now pid i u :
  Inquiries.assigned_to
    (inquiries_created_by_set_null now pid (inquiries_assigned_to_set_null now pid i))
    = Some u →
  Inquiries.assigned_to i = Some u ∧ u ≠ pid.
Proof.
  unfold inquiries_created_by_set_null, inquiries_assigned_to_set_null.
  repeat case_bool_decide; simpl in *; try done; intros Hu; split; try done;
    congruence.
Qed.

Lemma inquiries_set_null_created_by now pid i u :
  Inquiries.created_by
    (inquiries_created_by_set_null now pid (inquiries_assigned_to_set_null now pid i))
    = Some u →
  Inquiries.created_by i = Some u ∧ u ≠ pid.
Proof.
  unfold inquiries_created_by_set_null, inquiries_assigned_to_set_null.
  repeat case_bool_decide; simpl in *; try done; intros Hu; split; try done;
    congruence.
Qed.

Lemma inquiries_set_null_status now pid i :
  Inquiries.status
    (inquiries_created_by_set_null now pid (inquiries_assigned_to_set_null now pid i))
    = Inquiries.status i.
Proof.
  unfold inquiries_created_by_set_null, inquiries_assigned_to_set_null.
  by repeat case_bool_decide.
Qed.

Lemma follow_ups_set_null_created_by pid f u :
  FollowUps.created_by (follow_ups_created_by_set_null pid f) = Some u →
  FollowUps.created_by f = Some u ∧ u ≠ pid.
Proof.
  unfold follow_ups_created_by_set_null.
  case_bool_decide; simpl; try done. intros Hu. split; congruence.
Qed.

Lemma follow_ups_set_null_inquiry_id pid f :
  FollowUps.inquiry_id (follow_ups_created_by_set_null pid f) = FollowUps.inquiry_id f.
Proof. unfold follow_ups_created_by_set_null. by case_bool_decide. Qed.

Lemma profiles_set_null_created_by now uid p u :
  Profiles.created_by (profiles_created_by_set_null now uid p) = Some u →
  Profiles.created_by p = Some u ∧ u ≠ uid.
Proof.
  unfold profiles_created_by_set_null.
  case_bool_decide; simpl; try done. intros Hu. split; congruence.
Qed.

Lemma profiles_set_null_role now uid p :
  Profiles.role (profiles_created_by_set_null now uid p) = Profiles.role p.
Proof. unfold profiles_created_by_set_null. by case_bool_decide. Qed.

(** ** Referential integrity is kept *)

Lemma wf_empty_db : wf empty_db.
Proof. by constructor; simpl; intros *; rewrite lookup_empty. Qed.

Lemma wf_remove_profile now pid d : wf d → wf (remove_profile now pid d).
Proof.
  intros [H1 H2 H3 H4 H5 H6 H7 H8]. constructor; simpl.
  - intros k p [_ Hk]%lookup_delete_Some. eauto.
  - intros k p u [_ Hk]%lookup_delete_Some. eauto.
  - intros k p [_ Hk]%lookup_delete_Some. eauto.
  - intros k i' u (i & <- & Hk)%lookup_fmap_Some [Ha Hne]%inquiries_set_null_assigned_to.
    rewrite lookup_delete_ne by done. eauto.
  - intros k i' u (i & <- & Hk)%lookup_fmap_Some [Ha Hne]%inquiries_set_null_created_by.
    rewrite lookup_delete_ne by done. eauto.
  - intros k i' (i & <- & Hk)%lookup_fmap_Some.
    rewrite inquiries_set_null_status. eauto.
  - intros k f' (f & <- & Hk)%lookup_fmap_Some.
    rewrite follow_ups_set_null_inquiry_id, lookup_fmap, fmap_is_Some. eauto.
  - intros k f' u (f & <- & Hk)%lookup_fmap_Some [Ha Hne]%follow_ups_set_null_created_by.
    rewrite lookup_delete_ne by done. eauto.
Qed.

Lemma wf_remove_inquiry iid d : wf d → wf (remove_inquiry iid d).
Proof.
  intros [H1 H2 H3 H4 H5 H6 H7 H8]. constructor; simpl; eauto.
  - intros k i u [_ Hk]%lookup_delete_Some. eauto.
  - intros k i u [_ Hk]%lookup_delete_Some. eauto.
  - intros k i [_ Hk]%lookup_delete_Some. eauto.
  - intros k f [Hk Hne]%map_lookup_filter_Some. simpl in Hne.
    rewrite lookup_delete_ne by done. eauto.
  - intros k f u [Hk _]%map_lookup_filter_Some. eauto.
Qed.

Lemma wf_remove_user now uid d : wf d → wf (remove_user now uid d).
Proof.
  intros Hd. pose proof (wf_remove_profile now uid d Hd) as [H1 H2 H3 H4 H5 H6 H7 H8].
  simpl in *. constructor; simpl.
  - intros k p' (p & <- & Hk)%lookup_fmap_Some.
    apply elem_of_difference. split; [eauto|].
    apply lookup_delete_Some in Hk as [Hne _]. set_solver.
  - intros k p' u (p & <- & Hk)%lookup_fmap_Some [Ha Hne]%profiles_set_null_created_by.
    apply elem_of_difference. split; [eauto|]. set_solver.
  - intros k p' (p & <- & Hk)%lookup_fmap_Some.
    rewrite profiles_set_null_role. eauto.
  - intros k i u Hk Ha. rewrite lookup_fmap, fmap_is_Some. eauto.
  - intros k i u Hk Ha. rewrite lookup_fmap, fmap_is_Some. eauto.
  - eauto.
  - eauto.
  - intros k f u Hk Ha. rewrite lookup_fmap, fmap_is_Some. eauto.
Qed.

Lemma wf_put_profile d id r :
  wf d → profile_constraints d id r = true →
  wf (Db (auth_users d) (<[id:=r]> (profiles d)) (inquiries d) (follow_ups d)).
Proof.
  intros [H1 H2 H3 H4 H5 H6 H7 H8]. unfold profile_constraints.
  rewrite !andb_true_iff, bool_decide_eq_true, role_check_spec, references_user_spec.
  intros [[[Hid _] Hrole] Hcb]. constructor; simpl; eauto.
  - intros k p [[<- <-]|[_ Hk]]%lookup_insert_Some; eauto.
  - intros k p u [[<- <-]|[_ Hk]]%lookup_insert_Some; eauto.
  - intros k p [[<- <-]|[_ Hk]]%lookup_insert_Some; eauto.
  - intros k i u Hk Ha. apply lookup_insert_is_Some'. eauto.
  - intros k i u Hk Ha. apply lookup_insert_is_Some'. eauto.
  - intros k f u Hk Ha. apply lookup_insert_is_Some'. eauto.
Qed.

Lemma wf_put_inquiry d id r :
  wf d → inquiry_constraints d r = true →
  wf (Db (auth_users d) (profiles d) (<[id:=r]> (inquiries d)) (follow_ups d)).
Proof.
  intros [H1 H2 H3 H4 H5 H6 H7 H8]. unfold inquiry_constraints.
  rewrite !andb_true_iff, status_check_spec, !references_profile_spec.
  intros [[Hst Has] Hcb]. constructor; simpl; eauto.
  - intros k p u [[<- <-]|[_ Hk]]%lookup_insert_Some; eauto.
  - intros k p u [[<- <-]|[_ Hk]]%lookup_insert_Some; eauto.
  - intros k p [[<- <-]|[_ Hk]]%lookup_insert_Some; eauto.
  - intros k f Hk. apply lookup_insert_is_Some'. eauto.
Qed.

Lemma wf_put_follow_up d id r :
  wf d → follow_up_constraints d r = true →
  wf (Db (auth_users d) (profiles d) (inquiries d) (<[id:=r]> (follow_ups d))).
Proof.
  intros [H1 H2 H3 H4 H5 H6 H7 H8]. unfold follow_up_constraints.
  rewrite !andb_true_iff, bool_decide_eq_true, references_profile_spec.
  intros [Hin Hcb]. constructor; simpl; eauto.
  - intros k f [[<- <-]|[_ Hk]]%lookup_insert_Some; eauto.
  - intros k f u [[<- <-]|[_ Hk]]%lookup_insert_Some; eauto.
Qed.

Lemma wf_drop_follow_up d id :
  wf d → wf (Db (auth_users d) (profiles d) (inquiries d) (delete id (follow_ups d))).
Proof.
  intros [H1 H2 H3 H4 H5 H6 H7 H8]. constructor; simpl; eauto.
  - intros k f [_ Hk]%lookup_delete_Some. eauto.
  - intros k f u [_ Hk]%lookup_delete_Some. eauto.
Qed.

Lemma wf_exec now caller q d : wf d → wf (exec now caller q d).2.
Proof.
  intros Hd. destruct q; simpl;
    repeat (match goal with
            | |- context [match ?m !! ?k with _ => _ end] => destruct (m !! k) eqn:?
            | |- context [if negb ?b then _ else _] => destruct b eqn:?
            end; simpl); try done;
    repeat match goal with
           | H : _ && _ = true |- _ => apply andb_true_iff in H as [? ?]
           end;
    eauto using wf_put_profile, wf_put_inquiry, wf_put_follow_up,
      wf_drop_follow_up, wf_remove_profile, wf_remove_inquiry.
Qed.

Lemma wf_step now e d : wf d → wf (step now e d).2.
Proof.
  intros Hd. destruct e as [caller q|uid|uid]; simpl.
  - by apply wf_exec.
  - destruct Hd as [H1 H2 H3 H4 H5 H6 H7 H8]. constructor; simpl; eauto.
    + intros k p Hk. apply elem_of_union_r. eauto.
    + intros k p u Hk Ha. apply elem_of_union_r. eauto.
  - by apply wf_remove_user.
Qed.

Lemma wf_run es d : wf d → wf (run es d).
Proof.
  revert d. induction es as [|[now e] es IH]; intros d Hd; simpl; [done|].
  apply IH. by apply wf_step.
Qed.

Lemma wf_no_orphans d : wf d → no_orphans d.
Proof. intros Hd. exact (wf_follow_ups_inquiry_id d Hd). Qed.

Lemma wf_seed_db : wf seed_db.
Proof.
  constructor; simpl; intros *; rewrite ?lookup_empty; try done.
  - intros [<- _]%lookup_singleton_Some. set_solver.
  - by intros [_ <-]%lookup_singleton_Some.
  - intros [_ <-]%lookup_singleton_Some. set_solver.
Qed.

Lemma wf_academy : wf academy.
Proof. apply wf_run, wf_seed_db. Qed.

(** ** Selecting rows *)

Lemma select_from_lookup {R} (pols : list (policy R)) (t : gmap uuid R) d caller k r :
  select_from pols t d caller !! k = Some r ↔
  t !! k = Some r ∧ visible pols d caller k r = true.
Proof. unfold select_from. by rewrite map_lookup_filter_Some. Qed.

Lemma select_from_all {R} (pols : list (policy R)) (t : gmap uuid R) d caller :
  (∀ k r, t !! k = Some r → visible pols d caller k r = true) →
  select_from pols t d caller = t.
Proof. intros H. apply map_filter_id. intros k r Hk. simpl. eauto. Qed.

Lemma caller_role_profile d u p :
  profiles d !! u = Some p → caller_role d (Some u) = Some (Profiles.role p).
Proof. intros H. unfold caller_role. simpl. by rewrite H. Qed.

(** ** Adding the policies to a statement *)

Lemma expand_S n r active cmds t :
  expand (S n) r active cmds t
  = if bool_decide (t ∈ active) then recursion_in t
    else first_failure
           (expand n r (t :: active) [SELECT] <$> (applicable r cmds t ≫= sub_selects)).
Proof. reflexivity. Qed.

Lemma first_failure_fmap {A} (f g : A → expansion) (l : list A) :
  (∀ x, f x ≠ out_of_fuel → g x = f x) →
  first_failure (f <$> l) ≠ out_of_fuel →
  first_failure (g <$> l) = first_failure (f <$> l).
Proof.
  intros Hfg. induction l as [|x l IH]; [done|]. cbn [fmap list_fmap first_failure].
  intros Hf. destruct (f x) eqn:Hx.
  - rewrite (Hfg x), Hx by (by rewrite Hx). by apply IH.
  - by rewrite (Hfg x), Hx by (by rewrite Hx).
  - done.
Qed.

(** An expansion that came to an end comes to the same end with more fuel. *)
Lemma expand_more_fuel n r active cmds t :
  expand n r active cmds t ≠ out_of_fuel →
  expand (S n) r active cmds t = expand n r active cmds t.
Proof.
  revert active cmds t. induction n as [|n IH]; intros active cmds t; [done|].
  rewrite (expand_S (S n)), (expand_S n). case_bool_decide; [done|].
  apply first_failure_fmap. intros x. apply IH.
Qed.

Lemma rls_expand_authenticated cmd t :
  rls_expand authenticated cmd t = recursion_in on_profiles.
Proof. by destruct cmd, t; vm_compute. Qed.

Lemma rls_expand_anon cmd t : rls_expand anon cmd t = expanded.
Proof. by destruct cmd, t; vm_compute. Qed.

Lemma rls_expand_fuel n r cmd t :
  expand (4 + n) r [] (policy_commands cmd) t = rls_expand r cmd t.
Proof.
  induction n as [|n IH]; [done|].
  rewrite <-Nat.add_succ_comm. cbn [Nat.add] in *.
  rewrite expand_more_fuel; [done|]. rewrite IH.
  destruct r; [by rewrite rls_expand_anon|by rewrite rls_expand_authenticated].
Qed.

Lemma applicable_anon cmd t : applicable anon (policy_commands cmd) t = [].
Proof. by destruct cmd, t; vm_compute. Qed.

(** Where the policies of a statement can be added, there are none to add:
    the statement runs for [anon], and every policy is [TO authenticated]. *)
Lemma expanded_without_policies r cmd t :
  rls_expand r cmd t = expanded → applicable r (policy_commands cmd) t = [].
Proof.
  destruct r; [intros _; apply applicable_anon|by rewrite rls_expand_authenticated].
Qed.

(** Every policy has an entry in [sub_select_from]. *)
Lemma sub_select_from_complete t p :
  p ∈ policies_on t → p.1.1 ∈ sub_select_from.*1.
Proof.
  destruct t; cbn; intros Hp;
    repeat (apply elem_of_cons in Hp as [->|Hp]; [cbn; set_solver|]);
    by apply elem_of_nil in Hp.
Qed.

Lemma pg_exec_authenticated now u s d :
  pg_exec now (Some u) s d = (error "42P17", d).
Proof. unfold pg_exec. cbn [session_role]. by rewrite rls_expand_authenticated. Qed.

Lemma pg_select_authenticated {R} t (pols : list (policy R)) table d u :
  pg_select t pols table d (Some u) = inl "42P17".
Proof. unfold pg_select. cbn [session_role]. by rewrite rls_expand_authenticated. Qed.

(** ** The policies for a signed-in caller *)

(** With the policies as they are worded, in the academy the employee 3
    is shown the inquiry assigned to them and their own profile, may update
    that inquiry and their own follow-up and add a follow-up to the inquiry,
    and the admin 1 is shown everything and may delete. *)
Example policies_as_worded_in_the_academy :
  select_inquiries academy (Some 3%N)
    = {[10%N := update_inquiries_updated_at 5%Z (inquiry_1 (Some 3%N))]} ∧
  select_inquiries academy (Some 1%N) = inquiries academy ∧
  select_profiles academy (Some 3%N) = {[3%N := employee_B]} ∧
  (exec 9%Z (Some 3%N)
     (update_inquiries 10%N
        (set_status_and_more_input "converted" ""
           (update_inquiries_updated_at 5%Z (inquiry_1 (Some 3%N))))) academy).1 = Ok ∧
  (exec 9%Z (Some 1%N) (delete_inquiries 11%N) academy).1 = Ok ∧
  (exec 9%Z (Some 1%N) (delete_profiles 4%N) academy).1 = Ok ∧
  (exec 9%Z (Some 3%N) (update_follow_ups 20%N follow_up_1) academy).1 = Ok ∧
  (exec 9%Z (Some 3%N) (insert_follow_ups 22%N follow_up_1) academy).1 = Ok.
Proof. repeat split; by vm_compute. Qed.

(** C1. A select on [inquiries] by a signed-in caller returns no rows at
    all. The policy for admins and co-leaders is added to the select of every
    signed-in caller; its sub-select reads [profiles], whose select policies
    read [profiles] again, and the statement ends with the error 42P17, in
    every database and for every caller. So the employee 3 of the academy is
    not shown the inquiry 10, which is assigned to them, and the admin 1 is
    shown no inquiry. *)
Theorem inquiries_select_raises_recursion :
  rls_expand authenticated SELECT on_inquiries = recursion_in on_profiles ∧
  (∀ d u, pg_select_inquiries d (Some u) = inl "42P17") ∧
  caller_role academy (Some 3%N) = Some "employee" ∧
  Inquiries.assigned_to <$> inquiries academy !! 10%N = Some (Some 3%N) ∧
  pg_select_inquiries academy (Some 3%N) = inl "42P17" ∧
  caller_role academy (Some 1%N) = Some "admin" ∧
  pg_select_inquiries academy (Some 1%N) = inl "42P17".
Proof.
  split; [apply rls_expand_authenticated|].
  split; [intros d u; apply pg_select_authenticated|].
  repeat split; by vm_compute.
Qed.

(** C2. An update of an inquiry by a signed-in caller changes nothing and
    ends with the error 42P17, in every database, for every caller and
    whatever the update sets: both update policies are added, and so are the
    select policies because the statement names its row, and the sub-selects
    on [profiles] cannot be expanded. So the employee 3 of the academy cannot
    update the inquiry 10, which is assigned to them before the update and
    after it. *)
Theorem inquiries_update_raises_recursion :
  rls_expand authenticated UPDATE on_inquiries = recursion_in on_profiles ∧
  (∀ now d u id set,
     pg_exec now (Some u) (UPDATE_inquiries id set) d = (error "42P17", d)) ∧
  caller_role academy (Some 3%N) = Some "employee" ∧
  Inquiries.assigned_to <$> inquiries academy !! 10%N = Some (Some 3%N) ∧
  (∀ i, Inquiries.assigned_to (set_status_and_more_input "converted" "" i)
        = Inquiries.assigned_to i) ∧
  pg_exec 9%Z (Some 3%N)
    (UPDATE_inquiries 10%N (set_status_and_more_input "converted" "")) academy
  = (error "42P17", academy).
Proof.
  split; [apply rls_expand_authenticated|].
  split; [intros; apply pg_exec_authenticated|].
  split; [by vm_compute|]. split; [by vm_compute|]. split; [done|].
  apply pg_exec_authenticated.
Qed.

(** C3. A delete on [inquiries] or on [profiles] by a signed-in caller
    removes nothing and ends with the error 42P17, in every database and for
    every caller, an admin included: the delete policy reads [profiles], and
    so do the select policies, which are added because the statement names
    its row. So the admin 1 of the academy can delete neither the inquiry 11
    nor the profile 4. *)
Theorem delete_raises_recursion :
  rls_expand authenticated DELETE on_inquiries = recursion_in on_profiles ∧
  rls_expand authenticated DELETE on_profiles = recursion_in on_profiles ∧
  (∀ now d u id,
     pg_exec now (Some u) (DELETE_FROM_inquiries id) d = (error "42P17", d)) ∧
  (∀ now d u id,
     pg_exec now (Some u) (DELETE_FROM_profiles id) d = (error "42P17", d)) ∧
  caller_role academy (Some 1%N) = Some "admin" ∧
  inquiries academy !! 11%N = Some inquiry_2 ∧
  pg_exec 9%Z (Some 1%N) (DELETE_FROM_inquiries 11%N) academy
  = (error "42P17", academy) ∧
  profiles academy !! 4%N = Some employee_E ∧
  pg_exec 9%Z (Some 1%N) (DELETE_FROM_profiles 4%N) academy
  = (error "42P17", academy).
Proof.
  split; [apply rls_expand_authenticated|].
  split; [apply rls_expand_authenticated|].
  split; [intros; apply pg_exec_authenticated|].
  split; [intros; apply pg_exec_authenticated|].
  split; [by vm_compute|]. split; [by vm_compute|].
  split; [apply pg_exec_authenticated|]. split; [by vm_compute|].
  apply pg_exec_authenticated.
Qed.

(** C4. A select on [profiles] by a signed-in caller returns no rows at all:
    the policies for admins and for co-leaders are added to the select of
    every signed-in caller, their sub-selects read [profiles], the table
    whose policies are being added, and the statement ends with the error
    42P17, in every database and for every caller. So the employee 3 of the
    academy is not shown their own profile. *)
Theorem profiles_select_raises_recursion :
  rls_expand authenticated SELECT on_profiles = recursion_in on_profiles ∧
  (∀ d u, pg_select_profiles d (Some u) = inl "42P17") ∧
  profiles academy !! 3%N = Some employee_B ∧
  Profiles.role employee_B = "employee" ∧
  pg_select_profiles academy (Some 3%N) = inl "42P17".
Proof.
  split; [apply rls_expand_authenticated|].
  split; [intros d u; apply pg_select_authenticated|].
  repeat split; by vm_compute.
Qed.

(** C5. An update of a follow-up by a signed-in caller changes nothing and
    ends with the error 42P17, in every database and for every caller, the
    author of the follow-up included. The update policy has no sub-select,
    but the statement names its row, so the select policy of [follow_ups] is
    added with it; that one reads [inquiries] and [profiles], and the select
    policies of [profiles] cannot be expanded. So the employee 3 of the
    academy cannot update the follow-up 20, which they wrote. *)
Theorem follow_ups_update_raises_recursion :
  applicable authenticated (policy_commands UPDATE) on_follow_ups
  = ["Users can view follow-ups for accessible inquiries";
     "Users can update own follow-ups"] ∧
  sub_selects "Users can update own follow-ups" = [] ∧
  sub_selects "Users can view follow-ups for accessible inquiries"
  = [on_inquiries; on_profiles] ∧
  rls_expand authenticated UPDATE on_follow_ups = recursion_in on_profiles ∧
  (∀ now d u id set,
     pg_exec now (Some u) (UPDATE_follow_ups id set) d = (error "42P17", d)) ∧
  FollowUps.created_by <$> follow_ups academy !! 20%N = Some (Some 3%N) ∧
  pg_exec 9%Z (Some 3%N) (UPDATE_follow_ups 20%N (λ f, f)) academy
  = (error "42P17", academy).
Proof.
  split; [by vm_compute|]. split; [by vm_compute|]. split; [by vm_compute|].
  split; [apply rls_expand_authenticated|].
  split; [intros; apply pg_exec_authenticated|].
  split; [by vm_compute|]. apply pg_exec_authenticated.
Qed.

(** C6. An insert into [follow_ups] by a signed-in caller stores nothing and
    ends with the error 42P17, and so does a select on [follow_ups], in every
    database and for every caller: the insert policy and the select policy
    read [inquiries] and [profiles], and the select policies of [profiles]
    cannot be expanded. So the employee 3 of the academy cannot add a
    follow-up to the inquiry 10, which is assigned to them, and cannot list
    its follow-ups. *)
Theorem follow_ups_insert_raises_recursion :
  rls_expand authenticated INSERT on_follow_ups = recursion_in on_profiles ∧
  rls_expand authenticated SELECT on_follow_ups = recursion_in on_profiles ∧
  (∀ now d u id f,
     pg_exec now (Some u) (INSERT_INTO_follow_ups id f) d = (error "42P17", d)) ∧
  (∀ d u, pg_select_follow_ups d (Some u) = inl "42P17") ∧
  caller_role academy (Some 3%N) = Some "employee" ∧
  Inquiries.assigned_to <$> inquiries academy !! 10%N = Some (Some 3%N) ∧
  FollowUps.inquiry_id follow_up_1 = 10%N ∧
  follow_ups academy !! 22%N = None ∧
  pg_exec 9%Z (Some 3%N) (INSERT_INTO_follow_ups 22%N follow_up_1) academy
  = (error "42P17", academy) ∧
  pg_select_follow_ups academy (Some 3%N) = inl "42P17".
Proof.
  split; [apply rls_expand_authenticated|].
  split; [apply rls_expand_authenticated|].
  split; [intros; apply pg_exec_authenticated|].
  split; [intros d u; apply pg_select_authenticated|].
  split; [by vm_compute|]. split; [by vm_compute|]. split; [done|].
  split; [by vm_compute|]. split; [apply pg_exec_authenticated|].
  apply pg_select_authenticated.
Qed.

(** ** Deleting rows *)

Lemma exec_not_ok_unchanged now caller q d :
  (exec now caller q d).1 ≠ Ok → (exec now caller q d).2 = d.
Proof. destruct q; exec_cases; done. Qed.

Lemma exec_delete_follow_ups now caller id d :
  exec now caller (delete_follow_ups id) d =
  (match follow_ups d !! id with Some _ => AuthorizationDenied | None => NotFound end, d).
Proof.
  unfold exec. destruct (follow_ups d !! id) as [f|]; [|done].
  by rewrite follow_ups_delete_spec.
Qed.

Lemma exec_keeps_follow_up now caller q d id f :
  follow_ups d !! id = Some f →
  follow_ups (exec now caller q d).2 !! id = None →
  q = delete_inquiries (FollowUps.inquiry_id f) ∧ (exec now caller q d).1 = Ok.
Proof.
  intros Hf. destruct q as [k r|k r|k|k r|k r|k|k r|k r|k];
    try rewrite exec_delete_follow_ups; exec_cases;
    cbn [follow_ups remove_profile remove_inquiry]; try congruence.
  - rewrite lookup_fmap, Hf. done.
  - intros Hnone. apply map_lookup_filter_None in Hnone as [Hnone|Hnone]; [congruence|].
    specialize (Hnone f Hf). cbn [snd] in Hnone.
    destruct (decide (FollowUps.inquiry_id f = k)) as [->|Hne]; [done|].
    by destruct Hnone.
  - intros [? _]%lookup_insert_None. congruence.
  - intros [? _]%lookup_insert_None. congruence.
Qed.

Lemma step_keeps_follow_up now e d id f :
  follow_ups d !! id = Some f →
  follow_ups (step now e d).2 !! id = None →
  ∃ caller, e = Statement caller (delete_inquiries (FollowUps.inquiry_id f)) ∧
            (step now e d).1 = Ok.
Proof.
  intros Hf. destruct e as [caller q|uid|uid]; cbn [step snd fst].
  - intros [-> Hok]%(exec_keeps_follow_up _ _ _ _ _ _ Hf). eauto.
  - cbn [follow_ups]. congruence.
  - cbn [follow_ups remove_user remove_profile]. by rewrite lookup_fmap, Hf.
Qed.

(** C7. [follow_ups] has no delete policy: the policy set allows no delete
    of a follow-up row, for any caller and any row, and a delete statement on
    [follow_ups] is never [Ok] and changes nothing. A stored follow-up that is
    gone after a step was removed by a successful delete of its parent
    inquiry. *)
Theorem follow_ups_never_deleted_directly :
  (∀ d caller id f, delete_allowed follow_ups_policies d caller id f = false) ∧
  (∀ now caller id d,
     (exec now caller (delete_follow_ups id) d).1 ≠ Ok ∧
     (exec now caller (delete_follow_ups id) d).2 = d) ∧
  (∀ now e d id f,
     follow_ups d !! id = Some f →
     follow_ups (step now e d).2 !! id = None →
     ∃ caller, e = Statement caller (delete_inquiries (FollowUps.inquiry_id f)) ∧
               (step now e d).1 = Ok).
Proof.
  split; [exact follow_ups_delete_spec|]. split.
  - intros now caller id d. rewrite exec_delete_follow_ups.
    by destruct (follow_ups d !! id).
  - exact step_keeps_follow_up.
Qed.

Lemma follow_ups_never_deleted_directly_witness :
  ∃ caller, Statement (Some 1%N) (delete_inquiries 10%N)
              = Statement caller (delete_inquiries (FollowUps.inquiry_id follow_up_1)) ∧
            (step 9%Z (Statement (Some 1%N) (delete_inquiries 10%N)) academy).1 = Ok.
Proof.
  apply (proj2 (proj2 follow_ups_never_deleted_directly) 9%Z
           (Statement (Some 1%N) (delete_inquiries 10%N)) academy 20%N follow_up_1);
    reflexivity.
Defined.

(** ** No orphaned follow-ups *)

Lemma no_orphans_remove_profile now pid d :
  no_orphans d → no_orphans (remove_profile now pid d).
Proof.
  intros Hd k f' (f & <- & Hk)%lookup_fmap_Some. cbn [inquiries remove_profile].
  rewrite follow_ups_set_null_inquiry_id, lookup_fmap, fmap_is_Some. eauto.
Qed.

Lemma no_orphans_remove_inquiry iid d :
  no_orphans d → no_orphans (remove_inquiry iid d).
Proof.
  intros Hd k f [Hk Hne]%map_lookup_filter_Some. cbn [inquiries remove_inquiry].
  cbn [snd] in Hne. rewrite lookup_delete_ne by done. eauto.
Qed.

Lemma no_orphans_exec now caller q d :
  no_orphans d → no_orphans (exec now caller q d).2.
Proof.
  intros Hd. destruct q as [k r|k r|k|k r|k r|k|k r|k r|k]; exec_cases;
    auto using no_orphans_remove_profile, no_orphans_remove_inquiry;
    intros k' f'; cbn [follow_ups inquiries].
  - intros Hf. apply lookup_insert_is_Some'. eauto.
  - intros Hf. apply lookup_insert_is_Some'. eauto.
  - match goal with H : _ && _ = true |- _ => apply andb_true_iff in H as [_ Hc] end.
    apply andb_true_iff in Hc as [Hin%bool_decide_eq_true _].
    intros [[<- <-]|[_ Hf]]%lookup_insert_Some; eauto.
  - match goal with H : follow_up_constraints _ _ = true |- _ =>
      apply andb_true_iff in H as [Hin%bool_decide_eq_true _] end.
    intros [[<- <-]|[_ Hf]]%lookup_insert_Some; eauto.
  - intros [_ Hf]%lookup_delete_Some. eauto.
Qed.

Lemma no_orphans_step now e d : no_orphans d → no_orphans (step now e d).2.
Proof.
  intros Hd. destruct e as [caller q|uid|uid]; cbn [step snd].
  - by apply no_orphans_exec.
  - exact Hd.
  - exact (no_orphans_remove_profile now uid d Hd).
Qed.

Lemma no_orphans_run es d : no_orphans d → no_orphans (run es d).
Proof.
  revert d. induction es as [|[now e] es IH]; intros d Hd; cbn [run]; [done|].
  apply IH. by apply no_orphans_step.
Qed.

(** C8. A successful delete of the inquiry [iid] leaves exactly the
    follow-ups whose [inquiry_id] is not [iid]: those of [iid] are all gone and
    the others are all kept as they were. With that, from a database without
    orphaned follow-ups, in particular from the empty one, no sequence of
    steps leads to a database with an orphaned follow-up. *)
Theorem delete_inquiries_cascade :
  (∀ now caller iid d d',
     exec now caller (delete_inquiries iid) d = (Ok, d') →
     inquiries d' !! iid = None ∧
     ∀ k f, follow_ups d' !! k = Some f ↔
            follow_ups d !! k = Some f ∧ FollowUps.inquiry_id f ≠ iid) ∧
  (∀ es d, no_orphans d → no_orphans (run es d)) ∧
  (∀ es, no_orphans (run es empty_db)).
Proof.
  split; [|split].
  - intros now caller iid d d'. exec_cases; try done. intros [= <-].
    split; [apply lookup_delete_eq|]. intros k f.
    cbn [follow_ups remove_inquiry]. by rewrite map_lookup_filter_Some.
  - exact no_orphans_run.
  - intros es. apply no_orphans_run. intros k f. cbn. by rewrite lookup_empty.
Qed.

Lemma delete_inquiries_cascade_witness :
  (inquiries (remove_inquiry 10%N academy) !! 10%N = None ∧
   ∀ k f, follow_ups (remove_inquiry 10%N academy) !! k = Some f ↔
          follow_ups academy !! k = Some f ∧ FollowUps.inquiry_id f ≠ 10%N) ∧
  no_orphans (run [(9%Z, Statement (Some 1%N) (delete_inquiries 10%N))] academy).
Proof.
  split.
  - apply (proj1 delete_inquiries_cascade 9%Z (Some 1%N) 10%N academy).
    reflexivity.
  - apply (proj1 (proj2 delete_inquiries_cascade)).
    apply wf_no_orphans, wf_academy.
Defined.

(** ** Deleting a profile *)

Lemma inquiries_set_null_after now pid i :
  inquiries_created_by_set_null now pid (inquiries_assigned_to_set_null now pid i)
  = inquiry_after_profile_delete now pid i.
Proof.
  unfold inquiries_created_by_set_null, inquiries_assigned_to_set_null,
    inquiry_after_profile_delete, refers_to, null_if, update_inquiries_updated_at.
  destruct i as [? ? ? ? ? ? a c ? ?]; cbn.
  by repeat (case_bool_decide; cbn).
Qed.

Lemma follow_ups_set_null_after pid f :
  follow_ups_created_by_set_null pid f = follow_up_refs_nulled pid f.
Proof.
  unfold follow_ups_created_by_set_null, follow_up_refs_nulled, null_if.
  destruct f; cbn. by case_bool_decide.
Qed.

Lemma remove_profile_inquiries now pid d k :
  inquiries (remove_profile now pid d) !! k
  = inquiry_after_profile_delete now pid <$> inquiries d !! k.
Proof.
  cbn [inquiries remove_profile]. rewrite lookup_fmap.
  destruct (inquiries d !! k); [|done]. cbn. by rewrite inquiries_set_null_after.
Qed.

Lemma remove_profile_follow_ups now pid d k :
  follow_ups (remove_profile now pid d) !! k
  = follow_up_refs_nulled pid <$> follow_ups d !! k.
Proof.
  cbn [follow_ups remove_profile]. rewrite lookup_fmap.
  destruct (follow_ups d !! k); [|done]. cbn. by rewrite follow_ups_set_null_after.
Qed.

Lemma remove_user_profile now uid d :
  profiles (remove_user now uid d) !! uid = None.
Proof.
  cbn [profiles remove_user remove_profile]. by rewrite lookup_fmap, lookup_delete_eq.
Qed.

(** C9, as the specification words it: the removal of a profile leaves every
    inquiry as [inquiry_refs_nulled] describes, all columns but the two
    references untouched. That fails. In the academy the inquiry 10 is
    assigned to the employee 3 and was last updated at time 5. When the
    account 3 is removed at time 9, which is what
    [Employees.handleRemoveEmployee] asks the identity provider for, the
    profile row 3 goes with it, the set-null on [assigned_to] is an update of
    the inquiry row, the [BEFORE UPDATE] trigger runs, and the stored
    [updated_at] is 9. *)
Lemma user_removal_moves_updated_at :
  step 9%Z (UserDeleted 3%N) academy = (Ok, remove_user 9%Z 3%N academy) ∧
  profiles academy !! 3%N = Some employee_B ∧
  profiles (remove_user 9%Z 3%N academy) !! 3%N = None ∧
  inquiries academy !! 10%N
    = Some (update_inquiries_updated_at 5%Z (inquiry_1 (Some 3%N))) ∧
  inquiries (remove_user 9%Z 3%N academy) !! 10%N
    ≠ Some (inquiry_refs_nulled 3%N
              (update_inquiries_updated_at 5%Z (inquiry_1 (Some 3%N)))) ∧
  Inquiries.updated_at <$> inquiries (remove_user 9%Z 3%N academy) !! 10%N
    = Some (Some 9%Z).
Proof.
  split; [done|]. split; [by vm_compute|]. split; [by vm_compute|].
  split; [by vm_compute|]. split; [|by vm_compute].
  vm_compute. discriminate.
Qed.

(** C9, amended. Whatever deletes the profile [pid], the removal of the
    account [pid] by the identity provider, which the foreign key of
    [profiles.id] passes on, or a [DELETE] on [profiles] that goes through:
    the profile row is gone and no inquiry or follow-up row is. Every
    inquiry is afterwards the row it was with [assigned_to] and [created_by]
    set to [NULL] where they were [pid], and with [updated_at] set to the
    time of the delete when one of them was; every other column is as
    before, and an inquiry that did not refer to [pid] is untouched. Every
    follow-up is afterwards the row it was with [created_by] set to [NULL]
    where it was [pid] and every other column as before. *)
Theorem delete_profiles_set_null (now : timestamptz) (e : event) (pid : uuid)
    (d d' : db) :
  deletes_profile e = Some pid →
  step now e d = (Ok, d') →
  profiles d' !! pid = None ∧
  (∀ k, inquiries d' !! k
        = inquiry_after_profile_delete now pid <$> inquiries d !! k) ∧
  (∀ k, follow_ups d' !! k = follow_up_refs_nulled pid <$> follow_ups d !! k) ∧
  (∀ k i, inquiries d !! k = Some i → refers_to pid i = false →
          inquiries d' !! k = Some i).
Proof.
  intros He Hstep.
  assert (profiles d' !! pid = None ∧
          inquiries d' = inquiries (remove_profile now pid d) ∧
          follow_ups d' = follow_ups (remove_profile now pid d)) as (Hp & Hi & Hf).
  { destruct e as [caller q|uid|uid]; [|done|].
    - destruct q; try done. injection He as ->. revert Hstep. cbn [step].
      exec_cases; try done. intros [= <-]. split; [apply lookup_delete_eq|done].
    - injection He as ->. injection Hstep as <-.
      split; [apply remove_user_profile|done]. }
  split; [done|]. rewrite Hi, Hf.
  split; [apply remove_profile_inquiries|].
  split; [apply remove_profile_follow_ups|].
  intros k i Hk Hno. rewrite remove_profile_inquiries, Hk. cbn. f_equal.
  unfold inquiry_after_profile_delete, null_if. rewrite Hno.
  unfold refers_to in Hno. apply orb_false_iff in Hno as [Ha Hc].
  rewrite Ha, Hc. by destruct i.
Qed.

Lemma delete_profiles_set_null_witness :
  profiles (remove_user 9%Z 3%N academy) !! 3%N = None ∧
  (∀ k, inquiries (remove_user 9%Z 3%N academy) !! k
        = inquiry_after_profile_delete 9%Z 3%N <$> inquiries academy !! k) ∧
  (∀ k, follow_ups (remove_user 9%Z 3%N academy) !! k
        = follow_up_refs_nulled 3%N <$> follow_ups academy !! k) ∧
  (∀ k i, inquiries academy !! k = Some i → refers_to 3%N i = false →
          inquiries (remove_user 9%Z 3%N academy) !! k = Some i).
Proof.
  exact (delete_profiles_set_null 9%Z (UserDeleted 3%N) 3%N academy
           (remove_user 9%Z 3%N academy) eq_refl eq_refl).
Defined.

(** ** [is_active] and the policies *)

Lemma with_is_active_lookup g d k :
  profiles (with_is_active g d) !! k = set_is_active (g k) <$> profiles d !! k.
Proof.
  cbn [profiles with_is_active]. rewrite map_lookup_imap.
  by destruct (profiles d !! k).
Qed.

Lemma exists_profile_with_is_active g d wh :
  (∀ k p b, wh k (set_is_active b p) = wh k p) →
  exists_profile (with_is_active g d) wh = exists_profile d wh.
Proof.
  intros Hwh. apply eq_true_iff_eq. rewrite !exists_profile_spec. split.
  - intros (k & p' & Hk & Hw). rewrite with_is_active_lookup in Hk.
    apply fmap_Some in Hk as (p & Hp & ->). rewrite Hwh in Hw. eauto.
  - intros (k & p & Hk & Hw). exists k, (set_is_active (g k) p).
    by rewrite with_is_active_lookup, Hk, Hwh.
Qed.

Lemma caller_is_admin_ignores {R} : ignores_is_active (@caller_is_admin R).
Proof.
  intros g d caller id r. unfold caller_is_admin. f_equal.
  by apply exists_profile_with_is_active.
Qed.

Lemma caller_is_co_leader_ignores {R} : ignores_is_active (@caller_is_co_leader R).
Proof.
  intros g d caller id r. unfold caller_is_co_leader. f_equal.
  by apply exists_profile_with_is_active.
Qed.

Lemma caller_is_admin_or_co_leader_ignores {R} :
  ignores_is_active (@caller_is_admin_or_co_leader R).
Proof.
  intros g d caller id r. unfold caller_is_admin_or_co_leader. f_equal.
  by apply exists_profile_with_is_active.
Qed.

Lemma parent_inquiry_accessible_ignores : ignores_is_active parent_inquiry_accessible.
Proof.
  intros g d caller id f.
  assert (∀ d', parent_inquiry_accessible d' caller id f
                = Some (Sql.is_true (parent_inquiry_accessible d' caller id f))) as Hsome.
  { intros d'. unfold parent_inquiry_accessible. by rewrite sql_is_true_Some. }
  rewrite (Hsome d), (Hsome (with_is_active g d)). f_equal.
  apply eq_true_iff_eq. rewrite !parent_inquiry_accessible_true. split.
  - intros (i & p' & u & -> & Hi & Hp & Hacc).
    rewrite with_is_active_lookup in Hp. apply fmap_Some in Hp as (p & Hp & ->).
    exists i, p, u. eauto.
  - intros (i & p & u & -> & Hi & Hp & Hacc).
    exists i, (set_is_active (g u) p), u.
    rewrite with_is_active_lookup, Hp. eauto.
Qed.

Lemma passes_with_is_active {R} (pols : list (policy R)) cmd g d caller id r :
  Forall policy_ignores_is_active pols →
  passes_using pols cmd (with_is_active g d) caller id r
    = passes_using pols cmd d caller id r ∧
  passes_check pols cmd (with_is_active g d) caller id r
    = passes_check pols cmd d caller id r.
Proof.
  unfold passes_using, passes_check.
  induction 1 as [|p pols [Hu Hc] _ [IHu IHc]]; [done|].
  cbn [existsb]. by rewrite Hu, Hc, IHu, IHc.
Qed.

Lemma profiles_policies_ignore : Forall policy_ignores_is_active profiles_policies.
Proof.
  repeat constructor; unfold using_expr, check_expr; cbn [pol_using pol_with_check];
    auto using @caller_is_admin_ignores, @caller_is_co_leader_ignores; ignores_row.
Qed.

Lemma inquiries_policies_ignore : Forall policy_ignores_is_active inquiries_policies.
Proof.
  repeat constructor; unfold using_expr, check_expr; cbn [pol_using pol_with_check];
    auto using @caller_is_admin_ignores, @caller_is_admin_or_co_leader_ignores;
    ignores_row.
Qed.

Lemma follow_ups_policies_ignore : Forall policy_ignores_is_active follow_ups_policies.
Proof.
  repeat constructor; unfold using_expr, check_expr; cbn [pol_using pol_with_check];
    auto using parent_inquiry_accessible_ignores; ignores_row.
Qed.

(** The policies of [profiles] do not read the [is_active] of the row they
    are asked about either. *)
Lemma profiles_policies_ignore_row cmd d caller id b r :
  passes_using profiles_policies cmd d caller id (set_is_active b r)
    = passes_using profiles_policies cmd d caller id r ∧
  passes_check profiles_policies cmd d caller id (set_is_active b r)
    = passes_check profiles_policies cmd d caller id r.
Proof. done. Qed.

Lemma forallb_map_to_list {V} (m : gmap uuid V) (f : uuid * V → bool) :
  forallb f (map_to_list m) = true ↔ ∀ k v, m !! k = Some v → f (k, v) = true.
Proof.
  rewrite forallb_forall. split.
  - intros H k v Hk. apply H, list_elem_of_In. by apply elem_of_map_to_list.
  - intros H [k v] Hin%list_elem_of_In%elem_of_map_to_list. eauto.
Qed.

Lemma email_unique_with_is_active g d id r :
  email_unique (with_is_active g d) id r = email_unique d id r.
Proof.
  apply eq_true_iff_eq. unfold email_unique. rewrite !forallb_map_to_list. split.
  - intros H k p Hk.
    specialize (H k (set_is_active (g k) p)).
    rewrite with_is_active_lookup, Hk in H. by apply H.
  - intros H k p' Hk. rewrite with_is_active_lookup in Hk.
    apply fmap_Some in Hk as (p & Hp & ->). by apply (H k p).
Qed.

Lemma profile_constraints_with_is_active g d id r :
  profile_constraints (with_is_active g d) id r = profile_constraints d id r.
Proof. unfold profile_constraints. by rewrite email_unique_with_is_active. Qed.

Lemma references_profile_with_is_active g d c :
  references_profile (with_is_active g d) c = references_profile d c.
Proof.
  destruct c as [u|]; [|done]. cbn [references_profile].
  apply bool_decide_ext. by rewrite with_is_active_lookup, fmap_is_Some.
Qed.

Lemma inquiry_constraints_with_is_active g d r :
  inquiry_constraints (with_is_active g d) r = inquiry_constraints d r.
Proof. unfold inquiry_constraints. by rewrite !references_profile_with_is_active. Qed.

Lemma follow_up_constraints_with_is_active g d r :
  follow_up_constraints (with_is_active g d) r = follow_up_constraints d r.
Proof. unfold follow_up_constraints. by rewrite references_profile_with_is_active. Qed.

Lemma profiles_free_with_is_active g d id :
  bool_decide (profiles (with_is_active g d) !! id = None)
  = bool_decide (profiles d !! id = None).
Proof. apply bool_decide_ext. by rewrite with_is_active_lookup, fmap_None. Qed.

Section allowed_with_is_active.
Context {R : Type} (pols : list (policy R)).
Hypothesis Hpols : Forall policy_ignores_is_active pols.

Lemma insert_allowed_with_is_active g d caller id r :
  insert_allowed pols (with_is_active g d) caller id r
  = insert_allowed pols d caller id r.
Proof. by apply passes_with_is_active. Qed.

Lemma update_allowed_with_is_active g d caller id old new :
  update_allowed pols (with_is_active g d) caller id old new
  = update_allowed pols d caller id old new.
Proof.
  unfold update_allowed.
  rewrite (proj1 (passes_with_is_active pols UPDATE g d caller id old Hpols)).
  by rewrite (proj2 (passes_with_is_active pols UPDATE g d caller id new Hpols)).
Qed.

Lemma delete_allowed_with_is_active g d caller id old :
  delete_allowed pols (with_is_active g d) caller id old
  = delete_allowed pols d caller id old.
Proof. by apply passes_with_is_active. Qed.

Lemma visible_with_is_active g d caller id r :
  visible pols (with_is_active g d) caller id r = visible pols d caller id r.
Proof. by apply passes_with_is_active. Qed.
End allowed_with_is_active.

Lemma exec_outcome_with_is_active now caller q g d :
  (exec now caller q (with_is_active g d)).1 = (exec now caller q d).1.
Proof.
  destruct q as [k r|k r|k|k r|k r|k|k r|k r|k]; unfold exec;
    rewrite ?profiles_free_with_is_active, ?with_is_active_lookup,
      ?profile_constraints_with_is_active, ?inquiry_constraints_with_is_active,
      ?follow_up_constraints_with_is_active,
      ?(insert_allowed_with_is_active _ profiles_policies_ignore),
      ?(insert_allowed_with_is_active _ inquiries_policies_ignore),
      ?(insert_allowed_with_is_active _ follow_ups_policies_ignore);
    cbn [inquiries follow_ups with_is_active].
  - by repeat (case_match; cbn [fst]).
  - destruct (profiles d !! k) as [old|]; cbn [fmap option_fmap option_map]; [|done].
    rewrite (update_allowed_with_is_active _ profiles_policies_ignore).
    change (update_allowed profiles_policies d caller k (set_is_active (g k) old) ?n)
      with (update_allowed profiles_policies d caller k old n).
    by repeat (case_match; cbn [fst]).
  - destruct (profiles d !! k) as [old|]; cbn [fmap option_fmap option_map]; [|done].
    rewrite (delete_allowed_with_is_active _ profiles_policies_ignore).
    change (delete_allowed profiles_policies d caller k (set_is_active (g k) old))
      with (delete_allowed profiles_policies d caller k old).
    by repeat (case_match; cbn [fst]).
  - by repeat (case_match; cbn [fst]).
  - destruct (inquiries d !! k) as [old|]; [|done].
    rewrite (update_allowed_with_is_active _ inquiries_policies_ignore).
    by repeat (case_match; cbn [fst]).
  - destruct (inquiries d !! k) as [old|]; [|done].
    rewrite (delete_allowed_with_is_active _ inquiries_policies_ignore).
    by repeat (case_match; cbn [fst]).
  - by repeat (case_match; cbn [fst]).
  - destruct (follow_ups d !! k) as [old|]; [|done].
    rewrite (update_allowed_with_is_active _ follow_ups_policies_ignore).
    by repeat (case_match; cbn [fst]).
  - destruct (follow_ups d !! k) as [old|]; [|done].
    rewrite (delete_allowed_with_is_active _ follow_ups_policies_ignore).
    by repeat (case_match; cbn [fst]).
Qed.

Lemma select_from_with_is_active {R} (pols : list (policy R)) (t : gmap uuid R)
    g d caller :
  Forall policy_ignores_is_active pols →
  select_from pols t (with_is_active g d) caller = select_from pols t d caller.
Proof.
  intros Hpols. unfold select_from. apply map_filter_ext. intros k r _. cbn [fst snd].
  by rewrite (visible_with_is_active _ Hpols).
Qed.

Lemma select_profiles_with_is_active g d caller k :
  select_profiles (with_is_active g d) caller !! k
  = set_is_active (g k) <$> select_profiles d caller !! k.
Proof.
  apply option_eq. intros r'. unfold select_profiles.
  rewrite fmap_Some, select_from_lookup, with_is_active_lookup, fmap_Some.
  setoid_rewrite select_from_lookup.
  split.
  - intros [(r & Hr & ->) Hvis]. exists r. split; [split; [done|]|done].
    by rewrite (visible_with_is_active _ profiles_policies_ignore) in Hvis.
  - intros (r & [Hr Hvis] & ->). split; [eauto|].
    by rewrite (visible_with_is_active _ profiles_policies_ignore).
Qed.

(** C10. No decision depends on [is_active]. Take any database and replace
    the [is_active] of its profiles by anything. For every caller, every
    command and every row, the policy sets of the three tables then decide
    as before, on existing rows ([USING]) and on proposed rows
    ([WITH CHECK]), also when the row asked about is a profile whose
    [is_active] differs; every statement has the outcome it had; and selects
    return the same inquiries, the same follow-ups and the same profiles up
    to their [is_active]. *)
Theorem decisions_ignore_is_active (g : uuid → option bool) (d : db)
    (caller : option uuid) :
  (∀ cmd id r b,
     passes_using profiles_policies cmd (with_is_active g d) caller id (set_is_active b r)
       = passes_using profiles_policies cmd d caller id r ∧
     passes_check profiles_policies cmd (with_is_active g d) caller id (set_is_active b r)
       = passes_check profiles_policies cmd d caller id r) ∧
  (∀ cmd id r,
     passes_using inquiries_policies cmd (with_is_active g d) caller id r
       = passes_using inquiries_policies cmd d caller id r ∧
     passes_check inquiries_policies cmd (with_is_active g d) caller id r
       = passes_check inquiries_policies cmd d caller id r) ∧
  (∀ cmd id r,
     passes_using follow_ups_policies cmd (with_is_active g d) caller id r
       = passes_using follow_ups_policies cmd d caller id r ∧
     passes_check follow_ups_policies cmd (with_is_active g d) caller id r
       = passes_check follow_ups_policies cmd d caller id r) ∧
  (∀ now q, (exec now caller q (with_is_active g d)).1 = (exec now caller q d).1) ∧
  select_inquiries (with_is_active g d) caller = select_inquiries d caller ∧
  select_follow_ups (with_is_active g d) caller = select_follow_ups d caller ∧
  (∀ k, select_profiles (with_is_active g d) caller !! k
        = set_is_active (g k) <$> select_profiles d caller !! k).
Proof.
  repeat split.
  - rewrite (proj1 (passes_with_is_active _ cmd g d caller id _ profiles_policies_ignore)).
    apply profiles_policies_ignore_row.
  - rewrite (proj2 (passes_with_is_active _ cmd g d caller id _ profiles_policies_ignore)).
    apply profiles_policies_ignore_row.
  - by apply passes_with_is_active, inquiries_policies_ignore.
  - by apply passes_with_is_active, inquiries_policies_ignore.
  - by apply passes_with_is_active, follow_ups_policies_ignore.
  - by apply passes_with_is_active, follow_ups_policies_ignore.
  - intros now q. apply exec_outcome_with_is_active.
  - apply select_from_with_is_active, inquiries_policies_ignore.
  - apply select_from_with_is_active, follow_ups_policies_ignore.
  - apply select_profiles_with_is_active.
Qed.

(** A deactivated admin still deletes an inquiry. *)
Example deactivated_admin_deletes :
  Profiles.is_active <$> profiles (with_is_active (λ _, Some false) academy) !! 1%N
    = Some (Some false) ∧
  (exec 9%Z (Some 1%N) (delete_inquiries 10%N)
     (with_is_active (λ _, Some false) academy)).1 = Ok.
Proof. by vm_compute. Qed.

(** * Further properties of the schema *)

(** ** What a session gets from PostgreSQL *)

Lemma passes_anon {R} (pols : list (policy R)) cmd d id r :
  Forall (λ p, pol_to p = authenticated) pols →
  passes_using pols cmd d None id r = false ∧
  passes_check pols cmd d None id r = false.
Proof.
  induction 1 as [|p pols Hp _ [IH1 IH2]]; [done|].
  unfold passes_using, passes_check in *. cbn [existsb]. rewrite IH1, IH2.
  unfold applies. rewrite Hp. cbn [session_role db_role_eqb].
  by rewrite andb_false_r.
Qed.

Lemma profiles_policies_to : Forall (λ p, pol_to p = authenticated) profiles_policies.
Proof. by repeat constructor. Qed.

Lemma inquiries_policies_to : Forall (λ p, pol_to p = authenticated) inquiries_policies.
Proof. by repeat constructor. Qed.

Lemma follow_ups_policies_to : Forall (λ p, pol_to p = authenticated) follow_ups_policies.
Proof. by repeat constructor. Qed.

Lemma select_from_anon {R} (pols : list (policy R)) (t : gmap uuid R) d :
  Forall (λ p, pol_to p = authenticated) pols → select_from pols t d None = ∅.
Proof.
  intros Hto. apply map_eq. intros k. rewrite lookup_empty.
  apply eq_None_not_Some. intros [r [_ Hv]%select_from_lookup].
  unfold visible in Hv. by rewrite (proj1 (passes_anon pols SELECT d k r Hto)) in Hv.
Qed.

Lemma pg_select_anon {R} t (pols : list (policy R)) (table : gmap uuid R) d :
  Forall (λ p, pol_to p = authenticated) pols → pg_select t pols table d None = inr ∅.
Proof.
  intros Hto. unfold pg_select. cbn [session_role].
  by rewrite rls_expand_anon, select_from_anon.
Qed.

Lemma pg_exec_anon now s d :
  pg_exec now None s d
  = (match statement_command s with
     | INSERT => error "42501"
     | _ => affected 0
     end, d).
Proof.
  unfold pg_exec. cbn [session_role]. rewrite rls_expand_anon.
  destruct s; cbn [statement_command]; unfold pg_insert, pg_update, pg_delete;
    repeat match goal with
           | |- context [match ?m !! ?k with _ => _ end] => destruct (m !! k)
           end;
    rewrite ?(proj1 (passes_anon _ _ _ _ _ profiles_policies_to)),
      ?(proj2 (passes_anon _ _ _ _ _ profiles_policies_to)),
      ?(proj1 (passes_anon _ _ _ _ _ inquiries_policies_to)),
      ?(proj2 (passes_anon _ _ _ _ _ inquiries_policies_to)),
      ?(proj1 (passes_anon _ _ _ _ _ follow_ups_policies_to)),
      ?(proj2 (passes_anon _ _ _ _ _ follow_ups_policies_to));
    done.
Qed.

Lemma pg_exec_unchanged now caller s d : (pg_exec now caller s d).2 = d.
Proof.
  destruct caller; [by rewrite pg_exec_authenticated|by rewrite pg_exec_anon].
Qed.

(** X1. No statement of a signed-in caller gets as far as the rows. Whatever
    table it is on and whatever the command, adding the policies runs into
    the select policies of [profiles] reading [profiles], with any amount of
    fuel from four levels on; so every insert, update and delete, by every
    caller and in every database, ends with the error 42P17 and leaves the
    database as it was. *)
Theorem signed_in_statement_raises_recursion (now : timestamptz) (u : uuid)
    (s : statement) (d : db) (n : nat) (cmd : command) (t : table_name) :
  expand (4 + n) authenticated [] (policy_commands cmd) t = recursion_in on_profiles ∧
  pg_exec now (Some u) s d = (error "42P17", d).
Proof.
  split; [|apply pg_exec_authenticated].
  by rewrite rls_expand_fuel, rls_expand_authenticated.
Qed.

(** X2. A request without a session has no policy added to it, every policy
    being [TO authenticated], so nothing recurs and row security refuses by
    default: a select returns no row, without an error; an insert ends with
    the error 42501; an update or a delete finds no row and reports none
    changed, without an error. The database is as it was. *)
Theorem no_session_is_refused_by_default (now : timestamptz) (s : statement) (d : db)
    (n : nat) (cmd : command) (t : table_name) :
  expand (4 + n) anon [] (policy_commands cmd) t = expanded ∧
  applicable anon (policy_commands cmd) t = [] ∧
  pg_select_profiles d None = inr ∅ ∧
  pg_select_inquiries d None = inr ∅ ∧
  pg_select_follow_ups d None = inr ∅ ∧
  pg_exec now None s d
  = (match statement_command s with
     | INSERT => error "42501"
     | _ => affected 0
     end, d).
Proof.
  split; [by rewrite rls_expand_fuel, rls_expand_anon|].
  split; [apply applicable_anon|].
  split; [apply pg_select_anon, profiles_policies_to|].
  split; [apply pg_select_anon, inquiries_policies_to|].
  split; [apply pg_select_anon, follow_ups_policies_to|].
  apply pg_exec_anon.
Qed.

(** X3. No sequence of statements, with or without sessions, changes a row
    of the three tables, and none of its statements reports a row changed:
    each answer is the error 42P17, the error 42501, or no row. *)
Theorem statements_change_nothing
    (ss : list (timestamptz * option uuid * statement)) (d : db) :
  pg_run ss d = d ∧
  Forall (λ x, (pg_exec x.1.1 x.1.2 x.2 d).1 ∈ [error "42P17"; error "42501"; affected 0])
         ss.
Proof.
  split.
  - induction ss as [|[[now caller] s] ss IH]; [done|].
    cbn [pg_run]. by rewrite pg_exec_unchanged.
  - apply Forall_forall. intros [[now caller] s] _. cbn [fst snd].
    destruct caller; [rewrite pg_exec_authenticated; set_solver|].
    rewrite pg_exec_anon. destruct (statement_command s); set_solver.
Qed.

(** ** The [updated_at] trigger *)

(** X5. A successful update of an inquiry or of a profile stores the proposed
    row with [updated_at] replaced by the time of the statement, whatever
    [updated_at] the request carried; the other rows of the table and the
    other tables are as before. [follow_ups] has no trigger: a successful
    update stores the proposed row as it is. *)
Theorem update_stamps_updated_at (now : timestamptz) (caller : option uuid)
    (id : uuid) (d d' : db) :
  (∀ r, exec now caller (update_inquiries id r) d = (Ok, d') →
     inquiries d' !! id = Some (update_inquiries_updated_at now r) ∧
     Inquiries.updated_at <$> inquiries d' !! id = Some (Some now) ∧
     (∀ k, k ≠ id → inquiries d' !! k = inquiries d !! k) ∧
     profiles d' = profiles d ∧ follow_ups d' = follow_ups d) ∧
  (∀ r, exec now caller (update_profiles id r) d = (Ok, d') →
     profiles d' !! id = Some (update_profiles_updated_at now r) ∧
     Profiles.updated_at <$> profiles d' !! id = Some (Some now) ∧
     (∀ k, k ≠ id → profiles d' !! k = profiles d !! k) ∧
     inquiries d' = inquiries d ∧ follow_ups d' = follow_ups d) ∧
  (∀ r, exec now caller (update_follow_ups id r) d = (Ok, d') →
     follow_ups d' !! id = Some r ∧
     (∀ k, k ≠ id → follow_ups d' !! k = follow_ups d !! k) ∧
     profiles d' = profiles d ∧ inquiries d' = inquiries d).
Proof.
  split; [|split]; intros r; exec_cases; try done; intros [= <-];
    cbn [profiles inquiries follow_ups]; rewrite lookup_insert_eq;
    repeat split; try done; intros k Hk; by rewrite lookup_insert_ne.
Qed.

Lemma update_stamps_updated_at_witness :
  inquiries (exec 9%Z (Some 3%N)
               (update_inquiries 10%N (inquiry_1 (Some 3%N))) academy).2 !! 10%N
    = Some (update_inquiries_updated_at 9%Z (inquiry_1 (Some 3%N))) ∧
  Inquiries.updated_at <$>
    inquiries (exec 9%Z (Some 3%N)
                 (update_inquiries 10%N (inquiry_1 (Some 3%N))) academy).2 !! 10%N
    = Some (Some 9%Z).
Proof.
  assert (exec 9%Z (Some 3%N) (update_inquiries 10%N (inquiry_1 (Some 3%N))) academy
          = (Ok, (exec 9%Z (Some 3%N)
                    (update_inquiries 10%N (inquiry_1 (Some 3%N))) academy).2)) as He
    by (vm_compute; reflexivity).
  destruct (proj1 (update_stamps_updated_at 9%Z (Some 3%N) 10%N academy _) _ He)
    as (H1 & H2 & _).
  exact (conj H1 H2).
Defined.

(** ** Constraints *)

Lemma exec_insert_profiles_ok now caller id r d :
  (exec now caller (insert_profiles id r) d).1 = Ok →
  profiles d !! id = None ∧ profile_constraints d id r = true.
Proof.
  exec_cases; try done. intros _.
  match goal with H : _ && _ = true |- _ => apply andb_true_iff in H as [Hf Hc] end.
  by apply bool_decide_eq_true in Hf.
Qed.

Lemma exec_update_profiles_ok now caller id r d :
  (exec now caller (update_profiles id r) d).1 = Ok →
  profile_constraints d id (update_profiles_updated_at now r) = true.
Proof. by exec_cases. Qed.

Lemma exec_insert_inquiries_ok now caller id r d :
  (exec now caller (insert_inquiries id r) d).1 = Ok →
  inquiries d !! id = None ∧ inquiry_constraints d r = true.
Proof.
  exec_cases; try done. intros _.
  match goal with H : _ && _ = true |- _ => apply andb_true_iff in H as [Hf Hc] end.
  by apply bool_decide_eq_true in Hf.
Qed.

Lemma exec_update_inquiries_ok now caller id r d :
  (exec now caller (update_inquiries id r) d).1 = Ok →
  inquiry_constraints d (update_inquiries_updated_at now r) = true.
Proof. by exec_cases. Qed.

Lemma exec_insert_follow_ups_ok now caller id r d :
  (exec now caller (insert_follow_ups id r) d).1 = Ok →
  follow_ups d !! id = None ∧ follow_up_constraints d r = true.
Proof.
  exec_cases; try done. intros _.
  match goal with H : _ && _ = true |- _ => apply andb_true_iff in H as [Hf Hc] end.
  by apply bool_decide_eq_true in Hf.
Qed.

Lemma exec_update_follow_ups_ok now caller id r d :
  (exec now caller (update_follow_ups id r) d).1 = Ok →
  follow_up_constraints d r = true.
Proof. by exec_cases. Qed.

(** X6. The [CHECK] constraints hold against every caller, an admin
    included: no insert or update of a profile whose [role] is not one of
    [admin], [co_leader], [employee], and no insert or update of an inquiry
    whose [status] is not one of [pending], [converted], [dropped], is ever
    [Ok]. *)
Theorem checks_reject (now : timestamptz) (caller : option uuid) (id : uuid) (d : db) :
  (∀ r, Profiles.role r ∉ ["admin"; "co_leader"; "employee"] →
     (exec now caller (insert_profiles id r) d).1 ≠ Ok ∧
     (exec now caller (update_profiles id r) d).1 ≠ Ok) ∧
  (∀ r, Inquiries.status r ∉ ["pending"; "converted"; "dropped"] →
     (exec now caller (insert_inquiries id r) d).1 ≠ Ok ∧
     (exec now caller (update_inquiries id r) d).1 ≠ Ok).
Proof.
  split; intros r Hbad; split; intros Hok; apply Hbad.
  - apply exec_insert_profiles_ok in Hok as [_ Hc]. unfold profile_constraints in Hc.
    apply andb_true_iff in Hc as [Hc _]. apply andb_true_iff in Hc as [_ Hc].
    by apply role_check_spec.
  - apply exec_update_profiles_ok in Hok. unfold profile_constraints in Hok.
    apply andb_true_iff in Hok as [Hc _]. apply andb_true_iff in Hc as [_ Hc].
    by apply role_check_spec in Hc.
  - apply exec_insert_inquiries_ok in Hok as [_ Hc]. unfold inquiry_constraints in Hc.
    apply andb_true_iff in Hc as [Hc _]. apply andb_true_iff in Hc as [Hc _].
    by apply status_check_spec.
  - apply exec_update_inquiries_ok in Hok. unfold inquiry_constraints in Hok.
    apply andb_true_iff in Hok as [Hc _]. apply andb_true_iff in Hc as [Hc _].
    by apply status_check_spec in Hc.
Qed.

Lemma checks_reject_witness :
  (exec 9%Z (Some 1%N)
     (update_inquiries 10%N
        (Inquiries.Row "Kavin" "9000000001" None "Physics" None "enrolled"
           (Some 3%N) (Some 2%N) (Some 4%Z) (Some 4%Z))) academy).1 ≠ Ok.
Proof.
  refine (proj2 (proj2 (checks_reject 9%Z (Some 1%N) 10%N academy)
                   (Inquiries.Row "Kavin" "9000000001" None "Physics" None "enrolled"
                      (Some 3%N) (Some 2%N) (Some 4%Z) (Some 4%Z)) _)).
  cbn [Inquiries.status]. intros Hin.
  apply elem_of_cons in Hin as [Hin|Hin]; [discriminate|].
  apply elem_of_cons in Hin as [Hin|Hin]; [discriminate|].
  apply elem_of_cons in Hin as [Hin|Hin]; [discriminate|].
  by apply elem_of_nil in Hin.
Defined.

(** X7. Keys are enforced against every caller. An insert under a key that
    is already stored is never [Ok]. Nor is an insert or update of a follow-up
    whose [inquiry_id] names no stored inquiry, of an inquiry whose
    [assigned_to] or [created_by] names no stored profile, or an insert of a
    profile whose id is not an account of [auth.users]. *)
Theorem keys_reject (now : timestamptz) (caller : option uuid) (id : uuid) (d : db) :
  (∀ r, is_Some (profiles d !! id) → (exec now caller (insert_profiles id r) d).1 ≠ Ok) ∧
  (∀ r, is_Some (inquiries d !! id) → (exec now caller (insert_inquiries id r) d).1 ≠ Ok) ∧
  (∀ r, is_Some (follow_ups d !! id) →
        (exec now caller (insert_follow_ups id r) d).1 ≠ Ok) ∧
  (∀ r, inquiries d !! FollowUps.inquiry_id r = None →
        (exec now caller (insert_follow_ups id r) d).1 ≠ Ok ∧
        (exec now caller (update_follow_ups id r) d).1 ≠ Ok) ∧
  (∀ r u, Inquiries.assigned_to r = Some u ∨ Inquiries.created_by r = Some u →
          profiles d !! u = None →
          (exec now caller (insert_inquiries id r) d).1 ≠ Ok ∧
          (exec now caller (update_inquiries id r) d).1 ≠ Ok) ∧
  (∀ r, id ∉ auth_users d → (exec now caller (insert_profiles id r) d).1 ≠ Ok).
Proof.
  split; [|split; [|split; [|split; [|split]]]].
  - intros r [p Hp] [Hfree _]%exec_insert_profiles_ok. congruence.
  - intros r [p Hp] [Hfree _]%exec_insert_inquiries_ok. congruence.
  - intros r [p Hp] [Hfree _]%exec_insert_follow_ups_ok. congruence.
  - intros r Hnone. split.
    + intros [_ Hc]%exec_insert_follow_ups_ok. unfold follow_up_constraints in Hc.
      apply andb_true_iff in Hc as [[i Hi]%bool_decide_eq_true _]. congruence.
    + intros Hc%exec_update_follow_ups_ok. unfold follow_up_constraints in Hc.
      apply andb_true_iff in Hc as [[i Hi]%bool_decide_eq_true _]. congruence.
  - intros r u Href Hnone.
    assert (inquiry_constraints d r = false) as Hbad.
    { apply not_true_is_false. unfold inquiry_constraints. intros Hc.
      apply andb_true_iff in Hc as [Hc Hcb]. apply andb_true_iff in Hc as [_ Has].
      rewrite references_profile_spec in Has, Hcb.
      destruct Href as [Ha|Ha]; [destruct (Has _ Ha)|destruct (Hcb _ Ha)]; congruence. }
    split.
    + intros [_ Hc]%exec_insert_inquiries_ok. congruence.
    + intros Hc%exec_update_inquiries_ok.
      change (inquiry_constraints d (update_inquiries_updated_at now r))
        with (inquiry_constraints d r) in Hc. congruence.
  - intros r Hno [_ Hc]%exec_insert_profiles_ok. unfold profile_constraints in Hc.
    apply andb_true_iff in Hc as [Hc _]. apply andb_true_iff in Hc as [Hc _].
    apply andb_true_iff in Hc as [Hc%bool_decide_eq_true _]. done.
Qed.

Lemma keys_reject_witness :
  (exec 9%Z (Some 1%N) (insert_inquiries 10%N inquiry_2) academy).1 ≠ Ok.
Proof.
  assert (is_Some (inquiries academy !! 10%N)) as Hi by (vm_compute; eauto).
  exact (proj1 (proj2 (keys_reject 9%Z (Some 1%N) 10%N academy)) inquiry_2 Hi).
Defined.

(** ** Invariants of the stored data *)

(** X8. Every step keeps the foreign keys and the [CHECK]s of the schema:
    from a database in which they hold, every sequence of statements and of
    account creations and removals leads to one in which they hold. *)
Theorem integrity_kept (es : list (timestamptz * event)) (d : db) :
  wf d → wf (run es d).
Proof. apply wf_run. Qed.

Lemma integrity_kept_witness : wf (run history seed_db).
Proof. exact (integrity_kept history seed_db wf_seed_db). Defined.

Lemma emails_unique_put d id r :
  emails_unique d → email_unique d id r = true →
  emails_unique (Db (auth_users d) (<[id:=r]> (profiles d)) (inquiries d) (follow_ups d)).
Proof.
  intros Hd Hu. unfold email_unique in Hu. rewrite forallb_map_to_list in Hu.
  assert (∀ k p, profiles d !! k = Some p →
                 Profiles.email p = Profiles.email r → k = id) as Hid.
  { intros k p Hk He. specialize (Hu k p Hk). cbn [fst snd] in Hu.
    apply orb_true_iff in Hu as [Hu|Hu].
    - by apply bool_decide_eq_true in Hu.
    - apply negb_true_iff, bool_decide_eq_false in Hu. done. }
  intros k1 k2 p1 p2. cbn [profiles].
  intros [[<- <-]|[Hn1 H1]]%lookup_insert_Some [[<- <-]|[Hn2 H2]]%lookup_insert_Some He;
    try done.
  - symmetry. eauto.
  - eauto.
  - eauto.
Qed.

Lemma emails_unique_remove_profile now pid d :
  emails_unique d → emails_unique (remove_profile now pid d).
Proof.
  intros Hd k1 k2 p1 p2. cbn [profiles remove_profile].
  intros [_ H1]%lookup_delete_Some [_ H2]%lookup_delete_Some. eauto.
Qed.

Lemma profiles_set_null_email now uid p :
  Profiles.email (profiles_created_by_set_null now uid p) = Profiles.email p.
Proof. unfold profiles_created_by_set_null. by case_bool_decide. Qed.

Lemma emails_unique_step now e d : emails_unique d → emails_unique (step now e d).2.
Proof.
  intros Hd. destruct e as [caller q|uid|uid]; cbn [step snd]; [|done|].
  - destruct q as [k r|k r|k|k r|k r|k|k r|k r|k]; exec_cases;
      auto using emails_unique_remove_profile.
    + match goal with H : _ && _ = true |- _ => apply andb_true_iff in H as [_ Hc] end.
      unfold profile_constraints in Hc.
      apply andb_true_iff in Hc as [Hc _]. apply andb_true_iff in Hc as [Hc _].
      apply andb_true_iff in Hc as [_ Hc]. by apply emails_unique_put.
    + match goal with H : profile_constraints _ _ _ = true |- _ =>
        unfold profile_constraints in H; apply andb_true_iff in H as [Hc _] end.
      apply andb_true_iff in Hc as [Hc _].
      apply andb_true_iff in Hc as [_ Hc]. by apply emails_unique_put.
  - intros k1 k2 p1' p2'. cbn [profiles remove_user remove_profile].
    intros (p1 & <- & [_ H1]%lookup_delete_Some)%lookup_fmap_Some
           (p2 & <- & [_ H2]%lookup_delete_Some)%lookup_fmap_Some.
    rewrite !profiles_set_null_email. eauto.
Qed.

(** X9. [profiles.email] stays unique: from a database in which no two
    profiles share an email, no sequence of statements and account creations
    and removals leads to one in which two do. *)
Theorem emails_stay_unique (es : list (timestamptz * event)) (d : db) :
  emails_unique d → emails_unique (run es d).
Proof.
  revert d. induction es as [|[now e] es IH]; intros d Hd; cbn [run]; [done|].
  apply IH. by apply emails_unique_step.
Qed.

Lemma emails_unique_seed_db : emails_unique seed_db.
Proof.
  intros k1 k2 p1 p2. cbn [profiles seed_db].
  by intros [<- _]%lookup_singleton_Some [<- _]%lookup_singleton_Some.
Qed.

Lemma emails_unique_run es d : emails_unique d → emails_unique (run es d).
Proof.
  revert d. induction es as [|[now e] es IH]; intros d Hd; cbn [run]; [done|].
  apply IH. by apply emails_unique_step.
Qed.

Lemma emails_unique_academy : emails_unique academy.
Proof. apply emails_unique_run, emails_unique_seed_db. Qed.

Lemma emails_stay_unique_witness : emails_unique (run history seed_db).
Proof. exact (emails_stay_unique history seed_db emails_unique_seed_db). Defined.

(** ** Callers without standing *)

Lemma select_from_none {R} (pols : list (policy R)) (t : gmap uuid R) d caller :
  (∀ k r, t !! k = Some r → visible pols d caller k r = true → False) →
  select_from pols t d caller = ∅.
Proof.
  intros H. apply map_eq. intros k. rewrite lookup_empty.
  apply eq_None_not_Some. intros [r [Hr Hv]%select_from_lookup]. eauto.
Qed.

Lemma exec_no_session now q d : (exec now None q d).1 ≠ Ok.
Proof.
  destruct q as [k r|k r|k|k r|k r|k|k r|k r|k]; exec_cases; try done;
    repeat match goal with
           | H : insert_allowed profiles_policies _ _ _ _ = true |- _ =>
               apply profiles_insert_spec in H
           | H : update_allowed profiles_policies _ _ _ _ _ = true |- _ =>
               apply profiles_update_spec in H
           | H : delete_allowed profiles_policies _ _ _ _ = true |- _ =>
               apply profiles_delete_spec in H
           | H : insert_allowed inquiries_policies _ _ _ _ = true |- _ =>
               apply inquiries_insert_spec in H as [H|H]
           | H : update_allowed inquiries_policies _ _ _ _ _ = true |- _ =>
               apply inquiries_update_spec in H as [[[H|H]|[[? H] _]] _]
           | H : delete_allowed inquiries_policies _ _ _ _ = true |- _ =>
               apply inquiries_delete_spec in H
           | H : insert_allowed follow_ups_policies _ _ _ _ = true |- _ =>
               apply follow_ups_insert_spec, parent_inquiry_accessible_true in H
                 as (? & ? & ? & H & _)
           | H : update_allowed follow_ups_policies _ _ _ _ _ = true |- _ =>
               apply follow_ups_update_spec in H as [[? H] _]
           | H : delete_allowed follow_ups_policies _ _ _ _ = true |- _ =>
               rewrite follow_ups_delete_spec in H
           end; done.
Qed.

(** X10. Every policy is [TO authenticated]: a request without a session
    sees no row of any table, and no statement it sends is ever [Ok] or
    changes anything. *)
Theorem no_session_no_access (now : timestamptz) (q : request) (d : db) :
  select_profiles d None = ∅ ∧ select_inquiries d None = ∅ ∧
  select_follow_ups d None = ∅ ∧
  (exec now None q d).1 ≠ Ok ∧ (exec now None q d).2 = d.
Proof.
  split; [|split; [|split; [|split]]];
    [| | |apply exec_no_session|apply exec_not_ok_unchanged, exec_no_session].
  - apply select_from_none. intros k r _ Hv%profiles_select_spec.
    by destruct Hv as [?|[?|?]].
  - apply select_from_none. intros k r _ Hv%inquiries_select_spec.
    by destruct Hv as [[?|?]|[[? ?] _]].
  - apply select_from_none. intros k r _ Hv%follow_ups_select_spec.
    by apply parent_inquiry_accessible_true in Hv as (? & ? & ? & ? & _).
Qed.

Lemma exec_ok_standing now caller q d :
  (exec now caller q d).1 = Ok →
  ∃ u, caller = Some u ∧
    (is_Some (profiles d !! u) ∨
     (∃ k i, inquiries d !! k = Some i ∧ Inquiries.assigned_to i = Some u) ∨
     (∃ k f, follow_ups d !! k = Some f ∧ FollowUps.created_by f = Some u)).
Proof.
  destruct caller as [u|]; [|by intros ?%exec_no_session].
  intros Hok. exists u. split; [done|].
  destruct (profiles d !! u) as [p|] eqn:Hp; [by eauto|]. right.
  assert (caller_role d (Some u) = None) as Hrole.
  { unfold caller_role. cbn. by rewrite Hp. }
  revert Hok.
  destruct q as [k r|k r|k|k r|k r|k|k r|k r|k]; exec_cases; try done; intros _;
    repeat match goal with
           | H : insert_allowed profiles_policies _ _ _ _ = true |- _ =>
               apply profiles_insert_spec in H
           | H : update_allowed profiles_policies _ _ _ _ _ = true |- _ =>
               apply profiles_update_spec in H
           | H : delete_allowed profiles_policies _ _ _ _ = true |- _ =>
               apply profiles_delete_spec in H
           | H : insert_allowed inquiries_policies _ _ _ _ = true |- _ =>
               apply inquiries_insert_spec in H as [H|H]
           | H : update_allowed inquiries_policies _ _ _ _ _ = true |- _ =>
               apply inquiries_update_spec in H as [[[H|H]|[_ H]] _]
           | H : delete_allowed inquiries_policies _ _ _ _ = true |- _ =>
               apply inquiries_delete_spec in H
           | H : insert_allowed follow_ups_policies _ _ _ _ = true |- _ =>
               apply follow_ups_insert_spec, parent_inquiry_accessible_true in H
                 as (? & ? & ? & [= <-] & _ & H & _)
           | H : update_allowed follow_ups_policies _ _ _ _ _ = true |- _ =>
               apply follow_ups_update_spec in H as [_ [H _]]
           | H : delete_allowed follow_ups_policies _ _ _ _ = true |- _ =>
               rewrite follow_ups_delete_spec in H
           end; try congruence; eauto 8.
Qed.

(** X11. In a database whose foreign keys hold, a session whose user has no
    profile row sees no row of any table, and no statement it sends is ever
    [Ok] or changes anything. *)
Theorem no_profile_no_access (now : timestamptz) (u : uuid) (q : request) (d : db) :
  wf d → profiles d !! u = None →
  select_profiles d (Some u) = ∅ ∧ select_inquiries d (Some u) = ∅ ∧
  select_follow_ups d (Some u) = ∅ ∧
  (exec now (Some u) q d).1 ≠ Ok ∧ (exec now (Some u) q d).2 = d.
Proof.
  intros Hd Hp.
  assert (caller_role d (Some u) = None) as Hrole.
  { unfold caller_role. cbn. by rewrite Hp. }
  assert ((exec now (Some u) q d).1 ≠ Ok) as Hno.
  { intros (u' & [= <-] & [[p Hp']|[(k & i & Hi & Ha)|(k & f & Hf & Hc)]])%exec_ok_standing.
    - congruence.
    - destruct (wf_inquiries_assigned_to d Hd _ _ _ Hi Ha). congruence.
    - destruct (wf_follow_ups_created_by d Hd _ _ _ Hf Hc). congruence. }
  split; [|split; [|split; [|split]]]; [| | |done|by apply exec_not_ok_unchanged].
  - apply select_from_none. intros k r Hk Hv%profiles_select_spec.
    rewrite Hrole in Hv. destruct Hv as [?|[?|[= <-]]]; congruence.
  - apply select_from_none. intros k r Hk Hv%inquiries_select_spec.
    rewrite Hrole in Hv. destruct Hv as [[?|?]|[_ Ha]]; try done.
    destruct (wf_inquiries_assigned_to d Hd _ _ _ Hk Ha). congruence.
  - apply select_from_none. intros k r _ Hv%follow_ups_select_spec.
    apply parent_inquiry_accessible_true in Hv as (? & ? & ? & [= <-] & _ & ? & _).
    congruence.
Qed.

Lemma no_profile_no_access_witness :
  select_profiles academy (Some 7%N) = ∅ ∧ select_inquiries academy (Some 7%N) = ∅ ∧
  select_follow_ups academy (Some 7%N) = ∅ ∧
  (exec 9%Z (Some 7%N) (insert_follow_ups 22%N follow_up_1) academy).1 ≠ Ok ∧
  (exec 9%Z (Some 7%N) (insert_follow_ups 22%N follow_up_1) academy).2 = academy.
Proof.
  assert (profiles academy !! 7%N = None) as Hp by (vm_compute; reflexivity).
  exact (no_profile_no_access 9%Z 7%N (insert_follow_ups 22%N follow_up_1) academy
           wf_academy Hp).
Defined.

(** ** Removing an account *)

(** X12. When the identity provider removes the account [uid], its profile
    goes with it and every reference to it is set to [NULL]: afterwards no
    profile, inquiry or follow-up mentions [uid], the other profiles are all
    still there, and so is every inquiry and every follow-up. *)
Theorem user_removal_leaves_no_reference (now : timestamptz) (uid : uuid) (d : db) :
  (uid ∉ auth_users (step now (UserDeleted uid) d).2) ∧
  profiles (step now (UserDeleted uid) d).2 !! uid = None ∧
  (∀ k p, profiles (step now (UserDeleted uid) d).2 !! k = Some p →
          Profiles.created_by p ≠ Some uid) ∧
  (∀ k i, inquiries (step now (UserDeleted uid) d).2 !! k = Some i →
          Inquiries.assigned_to i ≠ Some uid ∧ Inquiries.created_by i ≠ Some uid) ∧
  (∀ k f, follow_ups (step now (UserDeleted uid) d).2 !! k = Some f →
          FollowUps.created_by f ≠ Some uid) ∧
  (∀ k, k ≠ uid → (is_Some (profiles (step now (UserDeleted uid) d).2 !! k)
                   ↔ is_Some (profiles d !! k))) ∧
  (∀ k, is_Some (inquiries (step now (UserDeleted uid) d).2 !! k)
        ↔ is_Some (inquiries d !! k)) ∧
  (∀ k, is_Some (follow_ups (step now (UserDeleted uid) d).2 !! k)
        ↔ is_Some (follow_ups d !! k)).
Proof.
  cbn [step snd remove_user remove_profile auth_users profiles inquiries follow_ups].
  split; [set_solver|]. split; [by rewrite lookup_fmap, lookup_delete_eq|].
  split; [|split; [|split; [|split; [|split]]]].
  - intros k p' (p & <- & _)%lookup_fmap_Some Hc.
    by apply profiles_set_null_created_by in Hc as [_ ?].
  - intros k i' (i & <- & _)%lookup_fmap_Some. split; intros Hc.
    + by apply inquiries_set_null_assigned_to in Hc as [_ ?].
    + by apply inquiries_set_null_created_by in Hc as [_ ?].
  - intros k f' (f & <- & _)%lookup_fmap_Some Hc.
    by apply follow_ups_set_null_created_by in Hc as [_ ?].
  - intros k Hk. by rewrite lookup_fmap, fmap_is_Some, lookup_delete_ne.
  - intros k. by rewrite lookup_fmap, fmap_is_Some.
  - intros k. by rewrite lookup_fmap, fmap_is_Some.
Qed.

Lemma user_removal_leaves_no_reference_witness :
  Inquiries.assigned_to
    (inquiry_after_profile_delete 9%Z 3%N
       (update_inquiries_updated_at 5%Z (inquiry_1 (Some 3%N)))) ≠ Some 3%N ∧
  Inquiries.created_by
    (inquiry_after_profile_delete 9%Z 3%N
       (update_inquiries_updated_at 5%Z (inquiry_1 (Some 3%N)))) ≠ Some 3%N.
Proof.
  assert (inquiries (step 9%Z (UserDeleted 3%N) academy).2 !! 10%N
          = Some (inquiry_after_profile_delete 9%Z 3%N
                    (update_inquiries_updated_at 5%Z (inquiry_1 (Some 3%N))))) as Hi
    by (vm_compute; reflexivity).
  exact (proj1 (proj2 (proj2 (proj2 (user_removal_leaves_no_reference 9%Z 3%N academy))))
           10%N _ Hi).
Defined.

(** ** What a caller cannot do *)

Ltac policy_facts :=
  repeat match goal with
         | H : insert_allowed profiles_policies _ _ _ _ = true |- _ =>
             apply profiles_insert_spec in H
         | H : update_allowed profiles_policies _ _ _ _ _ = true |- _ =>
             apply profiles_update_spec in H
         | H : delete_allowed profiles_policies _ _ _ _ = true |- _ =>
             apply profiles_delete_spec in H
         | H : delete_allowed inquiries_policies _ _ _ _ = true |- _ =>
             apply inquiries_delete_spec in H
         | H : delete_allowed follow_ups_policies _ _ _ _ = true |- _ =>
             rewrite follow_ups_delete_spec in H
         end.

(** X13. Only an admin's statement changes [profiles] or removes a row: when
    a statement of a caller whose profile does not say [admin] is [Ok], the
    profiles are exactly as before and every inquiry and every follow-up that
    was stored is still stored. *)
Theorem only_admin_changes_profiles_or_removes (now : timestamptz)
    (caller : option uuid) (q : request) (d d' : db) :
  exec now caller q d = (Ok, d') → caller_role d caller ≠ Some "admin" →
  profiles d' = profiles d ∧
  (∀ k, is_Some (inquiries d !! k) → is_Some (inquiries d' !! k)) ∧
  (∀ k, is_Some (follow_ups d !! k) → is_Some (follow_ups d' !! k)).
Proof.
  destruct q as [k r|k r|k|k r|k r|k|k r|k r|k]; exec_cases; try done;
    intros [= <-] Hno; policy_facts; try done;
    cbn [profiles inquiries follow_ups]; repeat split; try done;
    intros k' Hk'; by apply lookup_insert_is_Some'; right.
Qed.

Lemma only_admin_changes_profiles_or_removes_witness :
  profiles (exec 9%Z (Some 2%N) (update_inquiries 11%N (inquiry_1 (Some 3%N)))
              academy).2 = profiles academy ∧
  (∀ k, is_Some (inquiries academy !! k) →
        is_Some (inquiries (exec 9%Z (Some 2%N)
                              (update_inquiries 11%N (inquiry_1 (Some 3%N)))
                              academy).2 !! k)) ∧
  (∀ k, is_Some (follow_ups academy !! k) →
        is_Some (follow_ups (exec 9%Z (Some 2%N)
                               (update_inquiries 11%N (inquiry_1 (Some 3%N)))
                               academy).2 !! k)).
Proof.
  assert (exec 9%Z (Some 2%N) (update_inquiries 11%N (inquiry_1 (Some 3%N))) academy
          = (Ok, (exec 9%Z (Some 2%N)
                    (update_inquiries 11%N (inquiry_1 (Some 3%N))) academy).2)) as He
    by (vm_compute; reflexivity).
  assert (caller_role academy (Some 2%N) ≠ Some "admin") as Hc
    by (vm_compute; discriminate).
  exact (only_admin_changes_profiles_or_removes 9%Z (Some 2%N) _ academy _ He Hc).
Defined.

(** X14. What an employee's statement can touch. When a statement of a
    caller whose profile says [employee] is [Ok], every inquiry is as before
    except possibly one that was assigned to the caller and still is; and
    every follow-up is as before except possibly one the caller added under
    an inquiry assigned to them, or one whose [created_by] was the caller and
    still is. *)
Theorem employee_reach (now : timestamptz) (e : uuid) (p : Profiles.row)
    (q : request) (d d' : db) :
  profiles d !! e = Some p → Profiles.role p = "employee" →
  exec now (Some e) q d = (Ok, d') →
  (∀ k, inquiries d' !! k = inquiries d !! k ∨
        ∃ old new, inquiries d !! k = Some old ∧ inquiries d' !! k = Some new ∧
                   Inquiries.assigned_to old = Some e ∧
                   Inquiries.assigned_to new = Some e) ∧
  (∀ k, follow_ups d' !! k = follow_ups d !! k ∨
        ∃ new, follow_ups d' !! k = Some new ∧
          ((follow_ups d !! k = None ∧
            ∃ i, inquiries d !! FollowUps.inquiry_id new = Some i ∧
                 Inquiries.assigned_to i = Some e) ∨
           (∃ old, follow_ups d !! k = Some old ∧
                   FollowUps.created_by old = Some e ∧
                   FollowUps.created_by new = Some e))).
Proof.
  intros Hp Hemp. pose proof (caller_role_profile d e p Hp) as Hrole.
  rewrite Hemp in Hrole.
  destruct q as [k r|k r|k|k r|k r|k|k r|k r|k]; exec_cases; try done;
    intros [= <-]; policy_facts; try congruence;
    cbn [profiles inquiries follow_ups].
  - match goal with H : insert_allowed inquiries_policies _ _ _ _ = true |- _ =>
      apply inquiries_insert_spec in H as [H|H]; congruence end.
  - match goal with H : update_allowed inquiries_policies _ _ _ _ _ = true |- _ =>
      apply inquiries_update_spec in H as [Hu Hc] end.
    destruct Hu as [[?|?]|[_ Hu]]; [congruence..|].
    destruct Hc as [[?|?]|[_ Hc]]; [congruence..|].
    split; [|by auto]. intros k'. destruct (decide (k' = k)) as [->|Hne].
    + right. eexists _, _. rewrite lookup_insert_eq. eauto.
    + left. by rewrite lookup_insert_ne.
  - match goal with H : insert_allowed follow_ups_policies _ _ _ _ = true |- _ =>
      apply follow_ups_insert_spec, parent_inquiry_accessible_true in H
        as (i & p' & u & [= <-] & Hi & Hp' & Hacc) end.
    match goal with H : _ && _ = true |- _ =>
      apply andb_true_iff in H as [Hfree%bool_decide_eq_true _] end.
    rewrite Hp in Hp'. injection Hp' as <-. rewrite Hemp in Hacc.
    destruct Hacc as [Hacc|Hacc].
    { apply elem_of_cons in Hacc as [?|Hacc]; [done|].
      apply elem_of_cons in Hacc as [?|Hacc]; [done|]. by apply elem_of_nil in Hacc. }
    split; [by auto|]. intros k'. destruct (decide (k' = k)) as [->|Hne].
    + right. eexists. rewrite lookup_insert_eq. split; [done|]. left. eauto.
    + left. by rewrite lookup_insert_ne.
  - match goal with H : update_allowed follow_ups_policies _ _ _ _ _ = true |- _ =>
      apply follow_ups_update_spec in H as (_ & Hu & Hc) end.
    split; [by auto|]. intros k'. destruct (decide (k' = k)) as [->|Hne].
    + right. eexists. rewrite lookup_insert_eq. split; [done|]. right. eauto.
    + left. by rewrite lookup_insert_ne.
Qed.

Lemma employee_reach_witness :
  inquiries (exec 9%Z (Some 3%N) (update_inquiries 10%N (inquiry_1 (Some 3%N)))
               academy).2 !! 11%N = inquiries academy !! 11%N ∨
  ∃ old new, inquiries academy !! 11%N = Some old ∧
    inquiries (exec 9%Z (Some 3%N) (update_inquiries 10%N (inquiry_1 (Some 3%N)))
                 academy).2 !! 11%N = Some new ∧
    Inquiries.assigned_to old = Some 3%N ∧ Inquiries.assigned_to new = Some 3%N.
Proof.
  assert (profiles academy !! 3%N = Some employee_B) as Hp by (vm_compute; reflexivity).
  assert (exec 9%Z (Some 3%N) (update_inquiries 10%N (inquiry_1 (Some 3%N))) academy
          = (Ok, (exec 9%Z (Some 3%N)
                    (update_inquiries 10%N (inquiry_1 (Some 3%N))) academy).2)) as He
    by (vm_compute; reflexivity).
  exact (proj1 (employee_reach 9%Z 3%N employee_B _ academy _ Hp eq_refl He) 11%N).
Defined.

(** * The client against the database *)

(** X16. What the dialogs send for a signed-in user fails. Saving the status
    and notes of an inquiry, assigning it, deleting it, adding an inquiry,
    adding a follow-up with or without a recording, demoting a co-leader and
    switching an employee between active and inactive each get the error
    42P17 back and leave the database as it was, whoever is signed in and
    whatever the database holds. Nothing at all is sent when no counselor is
    selected, when the user does not confirm, or when the upload of the
    recording failed. *)
Theorem handlers_get_recursion_error (now : timestamptz) (u : uuid)
    (caller : option uuid) (profile : option (uuid * Profiles.row)) (d : db)
    (inquiry_id new_id coLeader selectedEmployee : uuid)
    (updatedStatus updatedMoreInput notes url : string)
    (follow_up_date : timestamptz) (form : AddInquiryModal.formData)
    (employee : uuid * Profiles.row) :
  handleUpdateInquiry now (Some u) inquiry_id updatedStatus updatedMoreInput d
  = (error "42P17", d) ∧
  handleAssign now (Some u) inquiry_id (Some selectedEmployee) d
  = (Some (error "42P17"), d) ∧
  handleAssign now caller inquiry_id None d = (None, d) ∧
  handleDeleteInquiry now (Some u) inquiry_id true d = (Some (error "42P17"), d) ∧
  handleDeleteInquiry now caller inquiry_id false d = (None, d) ∧
  AddInquiryModal.handleSubmit now (Some u) profile new_id form d
  = (error "42P17", d) ∧
  handleAddFollowUp now (Some u) profile new_id inquiry_id notes follow_up_date None d
  = (Some (error "42P17"), d) ∧
  handleAddFollowUp now (Some u) profile new_id inquiry_id notes follow_up_date
    (Some (Some url)) d
  = (Some (error "42P17"), d) ∧
  handleAddFollowUp now caller profile new_id inquiry_id notes follow_up_date
    (Some None) d
  = (None, d) ∧
  handleDemoteToEmployee now (Some u) coLeader true d = (Some (error "42P17"), d) ∧
  handleDemoteToEmployee now caller coLeader false d = (None, d) ∧
  toggleActiveStatus now (Some u) employee d = (error "42P17", d).
Proof.
  unfold handleUpdateInquiry, handleAssign, handleDeleteInquiry,
    AddInquiryModal.handleSubmit, handleAddFollowUp, handleDemoteToEmployee,
    toggleActiveStatus, sent.
  cbn [negb]. rewrite !pg_exec_authenticated. by repeat split.
Qed.

(** ** What the pages load *)

Lemma returns_ordered_empty {R} (created_at : R → option timestamptz)
    (data : list (uuid * R)) :
  returns_ordered created_at ∅ data ↔ data = [].
Proof.
  unfold returns_ordered. rewrite map_to_list_empty. split.
  - intros [Hp _]. by apply Permutation_nil_r.
  - intros ->. split; [done|constructor].
Qed.

Lemma assigned_to_profile_empty profile : assigned_to_profile profile ∅ = ∅.
Proof.
  unfold assigned_to_profile. destruct (role_is profile "employee"); [|done].
  apply map_filter_empty.
Qed.

(** X20. What the pages load for a signed-in user fails. The query of the
    inquiry page, that of the follow-up list and that of the dashboard each
    get the error 42P17, whoever is signed in and whatever the database
    holds; the page then keeps what it held, so a list that was empty stays
    empty and the figures of the dashboard stay at their initial zeros.
    Without a session the queries get no error and no row: the lists become
    empty and the figures zero. *)
Theorem loads_get_recursion_error (d : db) (u : uuid)
    (profile : option (uuid * Profiles.row)) (inquiry_id : uuid) :
  loadInquiries_query d (Some u) profile = inl "42P17" ∧
  (∀ inquiries inquiries',
     loadInquiries d (Some u) profile inquiries inquiries' ↔ inquiries' = inquiries) ∧
  loadFollowUps_query d (Some u) inquiry_id = inl "42P17" ∧
  (∀ followUps followUps',
     loadFollowUps d (Some u) inquiry_id followUps followUps' ↔ followUps' = followUps) ∧
  (∀ kpi, loadDashboardData d (Some u) profile kpi = kpi) ∧
  (∀ inquiries inquiries',
     loadInquiries d None profile inquiries inquiries' ↔ inquiries' = []) ∧
  (∀ followUps followUps',
     loadFollowUps d None inquiry_id followUps followUps' ↔ followUps' = []) ∧
  (∀ kpi, loadDashboardData d None profile kpi = KPI 0 0 0 0).
Proof.
  unfold loadInquiries, loadFollowUps, loadDashboardData, loadInquiries_query,
    loadFollowUps_query, pg_select_inquiries, pg_select_follow_ups, pg_select_profiles.
  rewrite !pg_select_authenticated.
  rewrite (pg_select_anon _ _ _ _ profiles_policies_to),
    (pg_select_anon _ _ _ _ inquiries_policies_to),
    (pg_select_anon _ _ _ _ follow_ups_policies_to).
  rewrite assigned_to_profile_empty, map_filter_empty, !fmap_empty, map_to_list_empty.
  split; [done|]. split; [done|]. split; [done|]. split; [done|]. split; [done|].
  split; [intros _ l; apply returns_ordered_empty|].
  split; [intros _ l; apply returns_ordered_empty|done].
Qed.

Lemma status_counts_add_up (l : list (uuid * Inquiries.row)) :
  Forall (λ kr, Inquiries.status kr.2 ∈ ["pending"; "converted"; "dropped"]) l →
  length l
  = length (filter (λ kr, Inquiries.status kr.2 = "converted") l)
    + length (filter (λ kr, Inquiries.status kr.2 = "dropped") l)
    + length (filter (λ kr, Inquiries.status kr.2 = "pending") l).
Proof.
  induction 1 as [|[k i] l Hst _ IH]; [done|]. cbn [snd] in Hst.
  rewrite !filter_cons. cbn [snd length].
  apply elem_of_cons in Hst as [->|Hst]; [|apply elem_of_cons in Hst as [->|Hst];
    [|apply elem_of_cons in Hst as [->|Hst]; [|by apply elem_of_nil in Hst]]];
    repeat case_decide; try done; cbn [length]; lia.
Qed.

(** X22. The counts add up. In a database whose [CHECK]s hold, for any loaded
    list of stored inquiries the total the dashboard and the analytics page
    show is the sum of the converted, dropped and pending counts; when
    nothing was loaded all four are 0. *)
Theorem kpi_counts_add_up (d : db) (data : list (uuid * Inquiries.row)) :
  wf d → (∀ k i, (k, i) ∈ data → inquiries d !! k = Some i) →
  total (kpiData (Some data))
  = converted (kpiData (Some data)) + dropped (kpiData (Some data))
    + pending (kpiData (Some data)) ∧
  kpiData None = KPI 0 0 0 0.
Proof.
  intros Hd Hdata. split; [|done]. cbn [kpiData total converted dropped pending
    count_status from_option].
  apply status_counts_add_up, Forall_forall. intros [k i] Hin. cbn [snd].
  exact (wf_inquiries_status d Hd k i (Hdata k i Hin)).
Qed.

Lemma kpi_counts_add_up_witness :
  total (kpiData (Some (map_to_list (inquiries academy))))
  = converted (kpiData (Some (map_to_list (inquiries academy))))
    + dropped (kpiData (Some (map_to_list (inquiries academy))))
    + pending (kpiData (Some (map_to_list (inquiries academy)))).
Proof.
  refine (proj1 (kpi_counts_add_up academy (map_to_list (inquiries academy))
                   wf_academy _)).
  intros k i Hin. by apply elem_of_map_to_list.
Defined.

(** ** Filtering the list *)

(** X24. The filter of the inquiry page, whatever [toLowerCase] and
    [includes] are. It keeps a sublist of the loaded inquiries, in their
    order; with an empty search term and status ['all'] it keeps them all;
    with any other status every inquiry it keeps has that status; and
    filtering what it kept again changes nothing. *)
Theorem filterInquiries_filters (toLowerCase : string → string)
    (includes : string → string → bool) (searchTerm statusFilter : string)
    (inquiries : list (uuid * Inquiries.row)) :
  sublist (filterInquiries toLowerCase includes searchTerm statusFilter inquiries)
    inquiries ∧
  filterInquiries toLowerCase includes "" "all" inquiries = inquiries ∧
  (statusFilter ≠ "all" →
     Forall (λ kr, Inquiries.status kr.2 = statusFilter)
       (filterInquiries toLowerCase includes searchTerm statusFilter inquiries)) ∧
  filterInquiries toLowerCase includes searchTerm statusFilter
    (filterInquiries toLowerCase includes searchTerm statusFilter inquiries)
  = filterInquiries toLowerCase includes searchTerm statusFilter inquiries.
Proof.
  assert (∀ (P : uuid * Inquiries.row → Prop) `{!∀ x, Decision (P x)}
            (l : list (uuid * Inquiries.row)),
            filter P (filter P l) = filter P l) as Hidem.
  { intros P HP l. rewrite list_filter_filter. apply list_filter_iff. tauto. }
  assert (∀ (P Q : uuid * Inquiries.row → Prop) `{!∀ x, Decision (P x)}
            `{!∀ x, Decision (Q x)} (l : list (uuid * Inquiries.row)),
            filter P (filter Q (filter P (filter Q l))) = filter P (filter Q l)) as Hidem2.
  { intros P Q HP HQ l. rewrite !list_filter_filter. apply list_filter_iff. tauto. }
  unfold filterInquiries. split; [|split; [done|split]].
  - destruct searchTerm; case_bool_decide; try reflexivity; try apply sublist_filter.
    etrans; apply sublist_filter.
  - intros Hne. rewrite bool_decide_eq_false_2 by done.
    apply Forall_forall. intros kr Hin. by apply list_elem_of_filter in Hin as [? _].
  - destruct searchTerm; case_bool_decide; auto.
Qed.

Lemma filterInquiries_filters_witness :
  Forall (λ kr, Inquiries.status kr.2 = "pending")
    (filterInquiries (λ s, s) (λ _ _, true) "kavin" "pending"
       (map_to_list (inquiries academy))).
Proof.
  assert ("pending" ≠ "all") as Hne by discriminate.
  exact (proj1 (proj2 (proj2 (filterInquiries_filters (λ s, s) (λ _ _, true) "kavin"
                                "pending" (map_to_list (inquiries academy))))) Hne).
Defined.

(** ** Navigation *)

(** X25. The links the layout shows lead where the caller may go: every
    item of [filteredNavigation] has a route in [App], and that route either
    gives no [allowedRoles] or lists the role of the session's profile. A
    session without a profile is shown no link at all. *)
Theorem filteredNavigation_within_routes (profile : option (uuid * Profiles.row)) :
  (∀ name href roles, (name, href, roles) ∈ filteredNavigation profile →
     ∃ allowedRoles, (href, allowedRoles) ∈ routes ∧
       ∀ rs, allowedRoles = Some rs →
             ∃ u p, profile = Some (u, p) ∧ Profiles.role p ∈ rs) ∧
  filteredNavigation None = [].
Proof.
  split; [|done]. intros name href roles [Hrole Hin]%list_elem_of_filter.
  cbn [snd] in Hrole.
  assert (∃ u p, profile = Some (u, p) ∧ Profiles.role p ∈ roles) as Hp.
  { destruct profile as [[u p]|]; [by eauto|]. exfalso.
    cbn [from_option] in Hrole. unfold navigation in Hin.
    rewrite !elem_of_cons, elem_of_nil in Hin.
    destruct Hin as [[= _ _ ->]|[[= _ _ ->]|[[= _ _ ->]|[[= _ _ ->]|[[= _ _ ->]|[]]]]]];
      rewrite !elem_of_cons, elem_of_nil in Hrole; intuition discriminate. }
  unfold navigation in Hin. rewrite !elem_of_cons, elem_of_nil in Hin.
  destruct Hin as [[= -> -> ->]|[[= -> -> ->]|[[= -> -> ->]|[[= -> -> ->]|[[= -> -> ->]|[]]]]]].
  - exists None. split; [|by intros rs [=]].
    unfold routes. repeat first [apply list_elem_of_here|apply list_elem_of_further].
  - exists None. split; [|by intros rs [=]].
    unfold routes. repeat first [apply list_elem_of_here|apply list_elem_of_further].
  - exists (Some ["admin"]). split; [|by intros rs [= <-]].
    unfold routes. repeat first [apply list_elem_of_here|apply list_elem_of_further].
  - exists (Some ["admin"]). split; [|by intros rs [= <-]].
    unfold routes. repeat first [apply list_elem_of_here|apply list_elem_of_further].
  - exists (Some ["admin"; "co_leader"]). split; [|by intros rs [= <-]].
    unfold routes. repeat first [apply list_elem_of_here|apply list_elem_of_further].
Qed.

Lemma filteredNavigation_within_routes_witness :
  ∃ allowedRoles, ("/analytics", allowedRoles) ∈ routes ∧
    ∀ rs, allowedRoles = Some rs →
          ∃ u p, Some (2%N, co_leader_C) = Some (u, p) ∧ Profiles.role p ∈ rs.
Proof.
  assert (("Analytics", "/analytics", ["admin"; "co_leader"])
          ∈ filteredNavigation (Some (2%N, co_leader_C))) as Hin.
  { apply list_elem_of_filter. split.
    - cbn. apply elem_of_cons. right. apply elem_of_cons. by left.
    - unfold navigation. do 4 apply list_elem_of_further. apply list_elem_of_here. }
  exact (proj1 (filteredNavigation_within_routes (Some (2%N, co_leader_C))) _ _ _ Hin).
Defined.
